(** * Socio-economic factors and cancer rates: the analysis pipeline

    A shallow embedding of the two Streamlit scripts of the repository,
    [streamlit_cancer_app.py] (the main application) and [streamlit_app.py]
    (the minimal one), and the properties of their data analysis pipeline:
    ingestion with fallback, the demo data generator, Pearson correlation,
    the strength classification, the relationship explorer and the regional
    aggregation.

    Conventions of the embedding.
    - A pandas column of dtype [float64] is a list of [option Q]: [None] is
      NaN (a missing value), [Some q] a number.  Sums and means are
      computed exactly.
    - A correlation coefficient needs a square root and is a real number;
      [None] is again NaN.  The coefficients are computed exactly.
    - The two routines that compute a coefficient are also given in
      binary64, operation by operation on primitive floats: the
      recurrences of the correlation matrix, to prove in binary64 what is
      proved of the exact matrix, and the pairwise coefficient of the
      relationship explorer, whose last digit is where it departs from the
      exact coefficient.
    - Python exceptions are values of [exn]; code that may raise returns a
      [result].
    - The widgets, charts and styling of the scripts are left out; the
      messages they show are kept where a property is about them. *)

From Stdlib Require Import Floats.
From Stdlib Require Import List String Ascii Bool Arith ZArith QArith Qminmax.
From Stdlib Require Import Qreals DecimalString.
From Stdlib Require Import Reals Lra Lia Psatz OrdersEx Sorted.
From Stdlib Require Import DecimalNat Permutation.
Import ListNotations.

Open Scope string_scope.
Open Scope list_scope.
Open Scope Q_scope.

Set Implicit Arguments.

(** ** Exceptions and results *)

Inductive exn : Type :=
| KeyError (key : string)
| ValueError (msg : string)
| TypeError (msg : string)
| ParserError (msg : string)
| StreamlitAPIException (msg : string).

Inductive result (A : Type) : Type :=
| Ok (a : A)
| Raise (e : exn).

Arguments Ok {A} a.
Arguments Raise {A} e.

Definition bind {A B : Type} (m : result A) (k : A -> result B) : result B :=
  match m with
  | Ok a => k a
  | Raise e => Raise e
  end.

Notation "x <- m ;; k" := (bind m (fun x => k))
  (at level 61, m at next level, right associativity).

Definition succeeds {A : Type} (m : result A) : bool :=
  match m with Ok _ => true | Raise _ => false end.

(** ** Data frames *)

(** A cell of a [float64] column. *)
Definition float64 : Type := option Q.

(** A column with its dtype.  [int64] columns hold no missing value;
    [object] columns hold strings (or missing values). *)
Inductive Series : Type :=
| Float64 (values : list float64)
| Int64 (values : list Z)
| Object (values : list (option string)).

Definition DataFrame : Type := list (string * Series).

Definition columns (df : DataFrame) : list string := map fst df.

(** [name in df.columns] *)
Definition has_column (name : string) (df : DataFrame) : bool :=
  existsb (String.eqb name) (columns df).

(** [df[name]] *)
Fixpoint getitem (df : DataFrame) (name : string) : result Series :=
  match df with
  | [] => Raise (KeyError name)
  | (c, s) :: rest => if String.eqb name c then Ok s else getitem rest name
  end.

(** [s.dtype in ['float64', 'int64']] *)
Definition is_numeric (s : Series) : bool :=
  match s with
  | Float64 _ | Int64 _ => true
  | Object _ => false
  end.

(** [df.select_dtypes(include=['float64', 'int64'])] *)
Definition select_dtypes (df : DataFrame) : DataFrame :=
  filter (fun c => is_numeric (snd c)) df.

(** The values of a numeric column as floats; an [object] column has none
    (pandas raises a [TypeError] when asked for its mean or correlation). *)
Definition to_numeric (s : Series) : result (list float64) :=
  match s with
  | Float64 v => Ok v
  | Int64 v => Ok (map (fun z => Some (inject_Z z)) v)
  | Object _ => Raise (TypeError "unsupported operand type(s)")
  end.

(** ** Sums and means over exact numbers *)

Definition Qsum (l : list Q) : Q := fold_right Qplus 0%Q l.

Definition Qlen (l : list Q) : Q := inject_Z (Z.of_nat (List.length l)).

(** The arithmetic mean of a non-empty list. *)
Definition Qmean (l : list Q) : Q := (Qsum l / Qlen l)%Q.

(** The non-missing values of a column ([skipna=True]). *)
Fixpoint dropna (l : list float64) : list Q :=
  match l with
  | [] => []
  | Some q :: rest => q :: dropna rest
  | None :: rest => dropna rest
  end.

(** [Series.mean()]: the mean of the non-missing values, NaN when there
    are none. *)
Definition nanmean (l : list float64) : float64 :=
  match dropna l with
  | [] => None
  | q :: qs => Some (Qmean (q :: qs))
  end.

(** ** Pearson correlation *)

(** The rows on which both columns hold a value (pairwise deletion). *)
Fixpoint pairwise (xs ys : list float64) : list (Q * Q) :=
  match xs, ys with
  | Some x :: xs', Some y :: ys' => (x, y) :: pairwise xs' ys'
  | _ :: xs', _ :: ys' => pairwise xs' ys'
  | _, _ => []
  end.

(** Deviations from the mean. *)
Definition deviations (l : list Q) : list Q :=
  map (fun v => (v - Qmean l)%Q) l.

(** Sum of the products of two lists, element by element. *)
Fixpoint dot (a b : list Q) : Q :=
  match a, b with
  | x :: a', y :: b' => (x * y + dot a' b')%Q
  | _, _ => 0%Q
  end.

(** Pearson's coefficient from the deviations of the two columns: the sum
    of their products over the square root of the product of the two sums
    of squares.  It is NaN when the divisor is zero, which is when one of
    the two columns is constant. *)
Definition coefficient (dx dy : list Q) : option R :=
  if Qeq_bool (dot dx dx * dot dy dy) 0 then None
  else Some (Q2R (dot dx dy) / sqrt (Q2R (dot dx dx * dot dy dy)))%R.

(** Pearson's coefficient of the paired observations; NaN with no
    observation ([min_periods] is 1). *)
Definition pearson (obs : list (Q * Q)) : option R :=
  match obs with
  | [] => None
  | _ :: _ =>
      coefficient (deviations (map fst obs)) (deviations (map snd obs))
  end.

(** [a.corr(b)] on two columns of floats, computed exactly. *)
Definition corr_values (a b : list float64) : option R :=
  pearson (pairwise a b).

(** [df[x].corr(df[y])] *)
Definition Series_corr (a b : Series) : result (option R) :=
  va <- to_numeric a ;;
  vb <- to_numeric b ;;
  Ok (corr_values va vb).

(** A computation on every element of a list, in order, that stops at the
    first exception. *)
Fixpoint mapM (A B : Type) (f : A -> result B) (l : list A) : result (list B) :=
  match l with
  | [] => Ok []
  | a :: rest =>
      b <- f a ;;
      bs <- mapM f rest ;;
      Ok (b :: bs)
  end.

(** ** The correlation matrix

    [numeric_df.corr()] does not go through [Series.corr]: pandas fills the
    matrix in one routine of its own, [nancorr].  For each pair of columns
    it scans the rows once, skips a row when one of the two cells is
    missing, and keeps the number of rows seen, the two running means, the
    two running sums of squared deviations and the running sum of the
    products of the deviations (Welford's recurrences). *)
Record moments : Type := {
  nobs : nat;
  meanx : Q;
  meany : Q;
  ssqdm_x : Q;
  ssqdm_y : Q;
  covxy : Q
}.

(** [nobs = ssqdm_x = ssqdm_y = covxy = meanx = meany = 0] *)
Definition no_moments : moments :=
  {| nobs := 0; meanx := 0; meany := 0; ssqdm_x := 0; ssqdm_y := 0; covxy := 0 |}.

(** A row on which both cells hold a value:
    [nobs += 1; dx = vx - meanx; dy = vy - meany;
     meanx += 1. / nobs * dx; meany += 1. / nobs * dy;
     ssqdm_x += (vx - meanx) * dx; ssqdm_y += (vy - meany) * dy;
     covxy += (vx - meanx) * dy] *)
Definition nancorr_row (m : moments) (vx vy : Q) : moments :=
  let nobs' := S (nobs m) in
  let dx := vx - meanx m in
  let dy := vy - meany m in
  let meanx' := meanx m + 1 / inject_Z (Z.of_nat nobs') * dx in
  let meany' := meany m + 1 / inject_Z (Z.of_nat nobs') * dy in
  {| nobs := nobs';
     meanx := meanx';
     meany := meany';
     ssqdm_x := ssqdm_x m + (vx - meanx') * dx;
     ssqdm_y := ssqdm_y m + (vy - meany') * dy;
     covxy := covxy m + (vx - meanx') * dy |}.

(** [for i in range(N): if mask[i, xi] and mask[i, yi]: ...] *)
Fixpoint nancorr_rows (m : moments) (xs ys : list float64) : moments :=
  match xs, ys with
  | Some vx :: xs', Some vy :: ys' => nancorr_rows (nancorr_row m vx vy) xs' ys'
  | _ :: xs', _ :: ys' => nancorr_rows m xs' ys'
  | _, _ => m
  end.

(** [if val > 1.0: val = 1.0 elif val < -1.0: val = -1.0] *)
Definition clip (val : R) : R :=
  if Rlt_dec 1 val then 1%R
  else if Rlt_dec val (-1) then (-1)%R
  else val.

(** The coefficient of a pair of columns: NaN when no row was seen
    ([nobs < minpv], and [min_periods] is 1) or when
    [divisor = sqrt(ssqdm_x * ssqdm_y)] is zero, the clipped quotient
    [covxy / divisor] otherwise. *)
Definition nancorr_pair (xs ys : list float64) : option R :=
  let m := nancorr_rows no_moments xs ys in
  if (nobs m <? 1)%nat then None
  else
    let divisor := sqrt (Q2R (ssqdm_x m * ssqdm_y m)) in
    if Req_dec_T divisor 0 then None
    else Some (clip (Q2R (covxy m) / divisor)).

(** [nancorr(mat)]: [for xi in range(K): for yi in range(xi + 1):] the
    coefficient [val] of the columns [xi] and [yi] is computed and
    [result[xi, yi] = result[yi, xi] = val].  The entry at row [i] and
    column [j] of the result is thus the value computed for the larger and
    the smaller of the two positions, in this order. *)
Definition nancorr (mat : list (list float64)) : list (list (option R)) :=
  let K := List.length mat in
  let val := fun xi yi => nancorr_pair (nth xi mat []) (nth yi mat []) in
  map (fun i => map (fun j => if (j <=? i)%nat then val i j else val j i) (seq 0 K))
      (seq 0 K).

(** [numeric_df.corr()]: the columns as arrays of floats (a column of text
    has none and the call raises), then the matrix of [nancorr] with the
    column names as labels of its rows and of its columns. *)
Definition DataFrame_corr (df : DataFrame)
  : result (list (string * list (string * option R))) :=
  mat <- mapM (fun c => to_numeric (snd c)) df ;;
  Ok (combine (columns df) (map (combine (columns df)) (nancorr mat))).

(** ** The pairwise coefficient in binary64

    [df[x].corr(df[y])] keeps the rows on which both columns hold a value
    and hands them to [np.corrcoef], which works in binary64: it subtracts
    from each column its mean, takes the three sums of products of the
    deviations, scales them by [1 / (N - 1)], divides the covariance by
    the square root of the first variance and then by the square root of
    the second, and clips the result to [-1, 1].  Every operation below is
    the IEEE 754 operation on primitive floats.  Sums are taken from left
    to right; numpy leaves the sums of products to BLAS, whose order is its
    own, so the definitions give numpy's result where these sums are exact
    (as on columns of small integers whose mean is an integer). *)

(** An integer as a float. *)
Definition binary64_of_Z (z : Z) : float :=
  match z with
  | Z0 => 0%float
  | Zpos _ => PrimFloat.of_uint63 (Uint63.of_Z z)
  | Zneg p => PrimFloat.opp (PrimFloat.of_uint63 (Uint63.of_Z (Zpos p)))
  end.

(** The float that stands for a cell: the quotient, rounded once, of its
    numerator by its denominator (both below 2^53 in every table here). *)
Definition binary64 (q : Q) : float :=
  PrimFloat.div (binary64_of_Z (Qnum q)) (binary64_of_Z (Zpos (Qden q))).










(** ** The correlation matrix in binary64

    The recurrences of [nancorr] for one pair of columns: the operations
    of [nancorr_row] and of [nancorr_pair], each one the IEEE 754
    operation, on the columns as arrays of floats (a missing cell is
    NaN). *)
Record moments_binary64 : Type := {
  nobs_b : nat;
  meanx_b : float;
  meany_b : float;
  ssqdm_x_b : float;
  ssqdm_y_b : float;
  covxy_b : float
}.

Definition no_moments_binary64 : moments_binary64 :=
  {| nobs_b := 0; meanx_b := 0; meany_b := 0;
     ssqdm_x_b := 0; ssqdm_y_b := 0; covxy_b := 0 |}.

Definition nancorr_row_binary64 (m : moments_binary64) (vx vy : float)
  : moments_binary64 :=
  let nobs' := S (nobs_b m) in
  let weight := PrimFloat.div 1%float (binary64_of_Z (Z.of_nat nobs')) in
  let dx := PrimFloat.sub vx (meanx_b m) in
  let dy := PrimFloat.sub vy (meany_b m) in
  let meanx' := PrimFloat.add (meanx_b m) (PrimFloat.mul weight dx) in
  let meany' := PrimFloat.add (meany_b m) (PrimFloat.mul weight dy) in
  {| nobs_b := nobs';
     meanx_b := meanx';
     meany_b := meany';
     ssqdm_x_b := PrimFloat.add (ssqdm_x_b m) (PrimFloat.mul (PrimFloat.sub vx meanx') dx);
     ssqdm_y_b := PrimFloat.add (ssqdm_y_b m) (PrimFloat.mul (PrimFloat.sub vy meany') dy);
     covxy_b := PrimFloat.add (covxy_b m) (PrimFloat.mul (PrimFloat.sub vx meanx') dy) |}.

(** [mask = np.isfinite(mat)]: a row counts when its two cells are finite
    floats. *)
Fixpoint nancorr_rows_binary64 (m : moments_binary64) (xs ys : list float)
  : moments_binary64 :=
  match xs, ys with
  | vx :: xs', vy :: ys' =>
      if PrimFloat.is_finite vx && PrimFloat.is_finite vy
      then nancorr_rows_binary64 (nancorr_row_binary64 m vx vy) xs' ys'
      else nancorr_rows_binary64 m xs' ys'
  | _, _ => m
  end.

(** The value stored for the pair; [divisor != 0] is true of a NaN
    divisor. *)
Definition nancorr_value_binary64 (m : moments_binary64) : float :=
  if (nobs_b m <? 1)%nat then PrimFloat.nan
  else
    let divisor := PrimFloat.sqrt (PrimFloat.mul (ssqdm_x_b m) (ssqdm_y_b m)) in
    if PrimFloat.eqb divisor 0%float then PrimFloat.nan
    else
      let val := PrimFloat.div (covxy_b m) divisor in
      if PrimFloat.ltb 1%float val then 1%float
      else if PrimFloat.ltb val (-1)%float then (-1)%float
      else val.

Definition nancorr_floats (xs ys : list float) : float :=
  nancorr_value_binary64 (nancorr_rows_binary64 no_moments_binary64 xs ys).

(** A cell as a float. *)
Definition cell_binary64 (c : float64) : float :=
  match c with
  | Some q => binary64 q
  | None => PrimFloat.nan
  end.

Definition nancorr_pair_binary64 (xs ys : list float64) : float :=
  nancorr_floats (map cell_binary64 xs) (map cell_binary64 ys).

(** ** Strength of a correlation *)

Inductive strength : Type := Strong | Moderate | Weak.

(** The message of each branch of lines 180 to 185. *)
Definition strength_message (s : strength) : string :=
  match s with
  | Strong => "**Strong correlation detected!**"
  | Moderate => "**Moderate correlation detected.**"
  | Weak => "**Weak correlation detected.**"
  end.

(** [if abs(correlation) > 0.7: ... elif abs(correlation) > 0.4: ...
    else: ...].  Every comparison with NaN is false, so NaN takes the
    last branch. *)
Definition InterpretStrength (correlation : option R) : strength :=
  match correlation with
  | None => Weak
  | Some r =>
      if Rlt_dec 0.7 (Rabs r) then Strong
      else if Rlt_dec 0.4 (Rabs r) then Moderate
      else Weak
  end.

(** ** The demo data generator

    numpy's global generator is a piece of state that every draw reads and
    advances.  Its algorithm is not part of the repository: the interface
    below is what [load_demo_data] uses of it, with the one law of numpy
    that matters here, that seeding replaces the state whatever it was. *)

Class NumpyRandom : Type := {
  (** the state of the global generator *)
  rng : Type;
  (** [np.random.seed(s)]: the state after the call *)
  seed : Z -> rng -> rng;
  (** [np.random.normal(loc, scale, size)] *)
  normal : Q -> Q -> nat -> rng -> list Q * rng;
  (** [np.random.choice(options, size)] *)
  choice : list string -> nat -> rng -> list string * rng;
  (** seeding forgets the previous state *)
  seed_resets : forall (s : Z) (g1 g2 : rng), seed s g1 = seed s g2
}.

(** Arithmetic on arrays, element by element, with a scalar broadcast. *)
Definition scalar_mul (c : Q) (v : list Q) : list Q := map (Qmult c) v.
Definition scalar_sub (c : Q) (v : list Q) : list Q := map (Qminus c) v.

Fixpoint array_add (a b : list Q) : list Q :=
  match a, b with
  | x :: a', y :: b' => (x + y) :: array_add a' b'
  | _, _ => []
  end.

(** [np.maximum(v, c)] *)
Definition maximum (v : list Q) (c : Q) : list Q := map (fun x => Qmax x c) v.

(** [f"County_{i}" for i in range(1, n+1)] *)
Definition county_name (i : nat) : string :=
  "County_" ++ NilEmpty.string_of_uint (Nat.to_uint i).

Definition counties (n : nat) : list string := map county_name (seq 1 n).

Definition float_column (v : list Q) : Series := Float64 (map Some v).
Definition text_column (v : list string) : Series := Object (map Some v).

Section Generator.

Context {RS : NumpyRandom}.

(** [load_demo_data()], lines 58 to 91, as a function of the state of the
    global generator at the call; it returns the table and the state it
    leaves. *)
Definition load_demo_data (ambient : rng) : DataFrame * rng :=
  let g := seed 42 ambient in
  let n := 100%nat in
  let '(median_income, g) := normal 45000 15000 n g in
  let '(poverty_rate, g) := normal 15 5 n g in
  let '(education_level, g) := normal 25 10 n g in
  let '(noise, g) := normal 0 10 n g in
  let cancer_rate :=
    array_add (array_add (scalar_sub 150 (scalar_mul 0.001 median_income))
                         (scalar_mul 2 poverty_rate)) noise in
  let cancer_rate := maximum cancer_rate 50 in
  let '(noise, g) := normal 0 5 n g in
  let lung_cancer :=
    array_add (array_add (scalar_sub 50 (scalar_mul 0.0003 median_income))
                         (scalar_mul 1.5 poverty_rate)) noise in
  let '(noise, g) := normal 0 8 n g in
  let breast_cancer :=
    array_add (array_add (scalar_sub 40 (scalar_mul 0.0002 median_income))
                         (scalar_mul 0.5 poverty_rate)) noise in
  let '(regions, g) :=
    choice ["Northeast"; "Midwest"; "South"; "West"] n g in
  ([ ("County", text_column (counties n));
     ("Region", text_column regions);
     ("Median_Income", float_column median_income);
     ("Poverty_Rate", float_column poverty_rate);
     ("Education_Level", float_column education_level);
     ("Cancer_Rate", float_column cancer_rate);
     ("Lung_Cancer_Rate", float_column lung_cancer);
     ("Breast_Cancer_Rate", float_column breast_cancer) ], g).

End Generator.

(** ** Loading a table *)

Record UploadedFile : Type := {
  name : string;
  content : list Byte.byte
}.

(** The parsers of pandas: a table, or the exception they raise. *)
Class PandasIO : Type := {
  read_csv : UploadedFile -> result DataFrame;
  read_excel : UploadedFile -> result DataFrame
}.

(** [s.endswith(suffix)] *)
Definition endswith (s suffix : string) : bool :=
  let ls := String.length s in
  let lx := String.length suffix in
  (lx <=? ls)%nat && String.eqb (substring (ls - lx) lx s) suffix.

(** [str(e)] *)
Definition exn_message (e : exn) : string :=
  match e with
  | KeyError m | ValueError m | TypeError m | ParserError m
  | StreamlitAPIException m => m
  end.

(** What the page shows to the user. *)
Inductive notice : Type :=
| st_success (msg : string)
| st_error (msg : string)
| st_info (msg : string)
| st_warning (msg : string).

(** How the loading part of a script run ends: with a table to analyse,
    with the run ended and nothing to analyse, or with an exception that
    nothing caught. *)
Inductive outcome : Type :=
| Continue (df : DataFrame) (shown : list notice)
| Ended (shown : list notice)
| Uncaught (e : exn).

Section Loader.

Context {RS : NumpyRandom} {IO : PandasIO}.

(** Lines 103 to 106: the parser is chosen by the name of the file. *)
Definition parse (f : UploadedFile) : result DataFrame :=
  if endswith (name f) ".csv" then read_csv f else read_excel f.

(** Lines 97 to 116 of [streamlit_cancer_app.py]. *)
Definition load_table (uploaded_file : option UploadedFile) (use_demo : bool)
    (ambient : rng) : outcome :=
  match uploaded_file with
  | Some f =>
      match parse f with
      | Ok df => Continue df [st_success "File uploaded successfully!"]
      | Raise e =>
          Continue (fst (load_demo_data ambient))
                   [st_error ("Error: " ++ exn_message e)]
      end
  | None =>
      if use_demo then
        Continue (fst (load_demo_data ambient))
                 [st_info "Using demo data. Upload your own file for custom analysis."]
      else
        Ended [st_warning "Please upload a file or use demo data to continue."]
  end.

(** Lines 14 to 17 and 41 to 42 of [streamlit_app.py]: the file is read
    outside of any [try]. *)
Definition load_table_minimal (uploaded_file : option UploadedFile) : outcome :=
  match uploaded_file with
  | Some f =>
      match read_excel f with
      | Ok df => Continue df []
      | Raise e => Uncaught e
      end
  | None => Ended [st_warning "Please upload your Excel dataset to begin."]
  end.

End Loader.

(** ** The relationship explorer *)

(** [st.selectbox(label, options, index)] returns the option at [index].
    With no option at all it returns [None]; with some options and an
    index that is not a position of the list it raises. *)
Definition selectbox (options : list string) (index : nat) : result (option string) :=
  match options with
  | [] => Ok None
  | _ :: _ =>
      match nth_error options index with
      | Some o => Ok (Some o)
      | None =>
          Raise (StreamlitAPIException
                   "Selectbox index must be greater than or equal to 0 and less than the length of options.")
      end
  end.

(** [df[col]] where [col] is what a select box returned. *)
Definition getitem_selected (df : DataFrame) (col : option string) : result Series :=
  match col with
  | Some c => getitem df c
  | None => Raise (KeyError "None")
  end.

(** What the explorer reports. *)
Record Relationship : Type := {
  x_col : option string;
  y_col : option string;
  correlation : option R;
  label : strength
}.

(** Lines 141 and 155 to 185 of [streamlit_cancer_app.py], with the default
    selections of the two select boxes. *)
Definition relationship_explorer (df : DataFrame) : result Relationship :=
  let numeric_df := select_dtypes df in
  x <- selectbox (columns numeric_df) 2 ;;
  y <- selectbox (columns numeric_df) 5 ;;
  sx <- getitem_selected df x ;;
  sy <- getitem_selected df y ;;
  c <- Series_corr sx sy ;;
  Ok {| x_col := x; y_col := y; correlation := c;
        label := InterpretStrength c |}.

(** ** Regional aggregation *)

(** A group key: the value of the grouping column, of whatever dtype. *)
Inductive key : Type :=
| KStr (s : string)
| KInt (z : Z)
| KFloat (q : Q).

Section GroupBy.

Variable K : Type.
Variable cmp : K -> K -> comparison.

(** Insertion of a key into the sorted list of the distinct keys. *)
Fixpoint insert_key (k : K) (sorted : list K) : list K :=
  match sorted with
  | [] => [k]
  | h :: t =>
      match cmp k h with
      | Lt => k :: h :: t
      | Eq => h :: t
      | Gt => h :: insert_key k t
      end
  end.

(** The distinct keys of a column in ascending order; a missing key
    makes no group ([sort=True], [dropna=True]). *)
Fixpoint group_keys (col : list (option K)) : list K :=
  match col with
  | [] => []
  | Some k :: rest => insert_key k (group_keys rest)
  | None :: rest => group_keys rest
  end.

Definition same_key (k : K) (cell : option K) : bool :=
  match cell with
  | Some k' => match cmp k k' with Eq => true | _ => false end
  | None => false
  end.

(** The cells of a column on the rows of the group [k]. *)
Fixpoint group_rows (A : Type) (k : K) (col : list (option K)) (values : list A)
  : list A :=
  match col, values with
  | c :: col', v :: values' =>
      if same_key k c then v :: group_rows k col' values'
      else group_rows k col' values'
  | _, _ => []
  end.

End GroupBy.

(** A row of [regional_stats]. *)
Record RegionStats : Type := {
  Region : key;
  Median_Income : float64;
  Poverty_Rate : float64;
  Cancer_Rate : float64
}.

Definition string_compare : string -> string -> comparison :=
  String_as_OT.compare.

Section Aggregate.

Variable K : Type.
Variable cmp : K -> K -> comparison.
Variable wrap : K -> key.

(** One row per group: the mean of each of the three columns over the
    rows of the group. *)
Definition aggregate (col : list (option K))
    (income poverty cancer : list float64) : list RegionStats :=
  map (fun k =>
         {| Region := wrap k;
            Median_Income := nanmean (group_rows cmp k col income);
            Poverty_Rate := nanmean (group_rows cmp k col poverty);
            Cancer_Rate := nanmean (group_rows cmp k col cancer) |})
      (group_keys cmp col).

End Aggregate.

(** [df.groupby('Region').agg({'Median_Income': 'mean', 'Poverty_Rate':
    'mean', 'Cancer_Rate': 'mean'}).reset_index()], lines 193 to 197.  A
    column of the dictionary that the table does not have is a [KeyError]
    (pandas names all the missing columns in its message, the model the
    first one); one that holds text is a [TypeError] when its mean is
    taken. *)
Definition regional_stats (df : DataFrame) : result (list RegionStats) :=
  region <- getitem df "Region" ;;
  s_income <- getitem df "Median_Income" ;;
  s_poverty <- getitem df "Poverty_Rate" ;;
  s_cancer <- getitem df "Cancer_Rate" ;;
  income <- to_numeric s_income ;;
  poverty <- to_numeric s_poverty ;;
  cancer <- to_numeric s_cancer ;;
  Ok match region with
     | Object col => aggregate string_compare KStr col income poverty cancer
     | Int64 col => aggregate Z.compare KInt (map Some col) income poverty cancer
     | Float64 col => aggregate Qcompare KFloat col income poverty cancer
     end.

(** [s.idxmax()] and [s.idxmin()]: the position of the first occurrence of
    the largest (smallest) value, missing values skipped.  [better v b]
    says that [v] replaces the best value [b] seen so far. *)
Fixpoint first_best (better : Q -> Q -> bool) (l : list float64) (i : nat)
    (best : option (nat * Q)) : option (nat * Q) :=
  match l with
  | [] => best
  | None :: rest => first_best better rest (S i) best
  | Some v :: rest =>
      match best with
      | None => first_best better rest (S i) (Some (i, v))
      | Some (_, b) =>
          if better v b then first_best better rest (S i) (Some (i, v))
          else first_best better rest (S i) best
      end
  end.

Definition Qgtb (v b : Q) : bool := negb (Qle_bool v b).
Definition Qltb (v b : Q) : bool := negb (Qle_bool b v).

Definition idx_of (found : option (nat * Q)) : result nat :=
  match found with
  | Some (i, _) => Ok i
  | None => Raise (ValueError "attempt to get argmax of an empty sequence")
  end.

Definition idxmax (l : list float64) : result nat :=
  idx_of (first_best Qgtb l 0 None).

Definition idxmin (l : list float64) : result nat :=
  idx_of (first_best Qltb l 0 None).

(** [frame.loc[i]] on a frame with the default index. *)
Definition loc (A : Type) (rows : list A) (i : nat) : result A :=
  match nth_error rows i with
  | Some r => Ok r
  | None => Raise (KeyError "index")
  end.

(** Line 211. *)
Definition highest_region (stats : list RegionStats) : result RegionStats :=
  i <- idxmax (map Cancer_Rate stats) ;;
  loc stats i.

(** Line 212. *)
Definition lowest_region (stats : list RegionStats) : result RegionStats :=
  i <- idxmin (map Cancer_Rate stats) ;;
  loc stats i.

(** What the third tab reports, lines 191 to 219. *)
Inductive RegionalReport : Type :=
| Report (stats : list RegionStats) (highest lowest : RegionStats)
| NotAvailable (shown : notice).

Definition regional_insights (df : DataFrame) : result RegionalReport :=
  if has_column "Region" df then
    stats <- regional_stats df ;;
    highest <- highest_region stats ;;
    lowest <- lowest_region stats ;;
    Ok (Report stats highest lowest)
  else
    Ok (NotAvailable
          (st_warning "Region data not available. Upload a dataset with a 'Region' column for regional analysis.")).

(** ** The vocabulary of the properties *)

(** The column [col] of a table as floats. *)
Definition numeric_column (df : DataFrame) (col : string) : result (list float64) :=
  s <- getitem df col ;;
  to_numeric s.

(** The cells of a column on the rows whose region is [l]. *)
Definition region_cells (l : string) (labels : list (option string))
    (values : list float64) : list float64 :=
  map snd
      (filter (fun row => match fst row with
                          | Some l' => String.eqb l l'
                          | None => false
                          end)
              (combine labels values)).


(** The values of a numeric column (none for a column of text). *)
Definition floats (s : Series) : list float64 :=
  match to_numeric s with
  | Ok v => v
  | Raise _ => []
  end.

(** A column is constant when the values it holds are all equal: its
    variance is zero. *)
Definition constant_column (a : list float64) : Prop :=
  forall x y, In (Some x) a -> In (Some y) a -> x == y.


(** What the recurrences of Welford keep for one column, after [n] values
    (those that satisfy [seen]) with the running mean [mean] and the
    running sum of squared deviations [ssqdm]: the sum is zero as long as
    the values seen are all equal, to the mean, and positive as soon as two
    of them differ. *)
Definition running_invariant (seen : Q -> Prop) (n : nat) (mean ssqdm : Q) : Prop :=
  (n = 0%nat -> forall v, ~ seen v) /\
  (n <> 0%nat -> exists v, seen v) /\
  ((ssqdm == 0 /\ forall v, seen v -> v == mean) \/
   (0 < ssqdm /\ exists u v, seen u /\ seen v /\ ~ u == v)).

(** A float that is a zero, of either sign, and a float that is a finite
    number other than zero. *)
Definition zero_float (x : float) : Prop := exists s, Prim2SF x = S754_zero s.

Definition finite_float (x : float) : Prop :=
  exists s m e, Prim2SF x = S754_finite s m e.

(** The float [x] is the number [v]: both are zeros, or [v] is finite and
    [x] is the same float. *)
Definition same_number (v x : float) : Prop :=
  (zero_float v /\ zero_float x) \/ (finite_float v /\ Prim2SF x = Prim2SF v).

(** The weight [1. / k] of the [k]-th value in the running mean is a
    finite float; the weights of the first [rows] values are. *)
Definition weight_is_finite (k : Z) : bool :=
  match Prim2SF (PrimFloat.div 1%float (binary64_of_Z k)) with
  | S754_zero _ | S754_finite _ _ _ => true
  | _ => false
  end.

Definition weights_step (st : Z * bool) : Z * bool :=
  ((fst st + 1)%Z, snd st && weight_is_finite (fst st)).

Definition weights_finite (rows : positive) : bool :=
  snd (Pos.iter weights_step (1%Z, true) rows).

(** The number of rows up to which the weights are checked, one by
    one. *)
Definition max_rows : positive := 100000.

(** The entry of a correlation matrix at a row and a column, by
    position. *)
Definition matrix_at (m : list (string * list (string * option R))) (i j : nat)
  : option (option R) :=
  match nth_error m i with
  | Some (_, cells) => option_map snd (nth_error cells j)
  | None => None
  end.

(** Region labels in ascending order. *)
Definition label_lt (a b : string) : Prop := string_compare a b = Lt.

Definition key_lt (a b : key) : Prop :=
  match a, b with
  | KStr x, KStr y => label_lt x y
  | KInt x, KInt y => (x < y)%Z
  | KFloat x, KFloat y => x < y
  | _, _ => False
  end.

Definition key_le (a b : key) : Prop := a = b \/ key_lt a b.

(** The rows of the regional statistics in the order of their regions. *)
Definition region_before (a b : RegionStats) : Prop :=
  key_lt (Region a) (Region b).

(** The reported extreme of the statistics for a given scan. *)
Definition extreme_by (better : Q -> Q -> bool) (stats : list RegionStats)
  : result RegionStats :=
  i <- idx_of (first_best better (map Cancer_Rate stats) 0 None) ;;
  loc stats i.

(** Modelled from the spec: the two directions of a ranking.  The scripts
    have no ranking of the regions; the ranking of the specification is
    written here from its words alone, to be compared with what the
    scripts report. *)
Inductive direction : Type := Ascending | Descending.

(** Modelled from the spec: the order of a ranking, by the value of the
    metric in the chosen direction, entries with equal values by region
    label, ascending. *)
Definition ranks_before (d : direction) (a b : string * Q) : bool :=
  let by_value :=
    match d with
    | Ascending => Qcompare (snd a) (snd b)
    | Descending => Qcompare (snd b) (snd a)
    end in
  match by_value with
  | Lt => true
  | Gt => false
  | Eq => match string_compare (fst a) (fst b) with Gt => false | _ => true end
  end.

(** Modelled from the spec: an entry put at its place in a ranking. *)
Fixpoint rank_insert (d : direction) (x : string * Q) (ranked : list (string * Q))
  : list (string * Q) :=
  match ranked with
  | [] => [x]
  | y :: rest =>
      if ranks_before d x y then x :: y :: rest
      else y :: rank_insert d x rest
  end.

(** Modelled from the spec: the ranking of a regional summary (a region
    label and the value of the metric for each region). *)
Definition RankRegions (d : direction) (summary : list (string * Q))
  : list (string * Q) :=
  fold_right (rank_insert d) [] summary.

(** The entry of a row of [regional_stats] in the summary of the cancer
    rate: none when the label is not text or the mean is missing. *)
Definition summary_entry (row : RegionStats) : option (string * Q) :=
  match Region row, Cancer_Rate row with
  | KStr l, Some v => Some (l, v)
  | _, _ => None
  end.

Fixpoint summary_of (stats : list RegionStats) : list (string * Q) :=
  match stats with
  | [] => []
  | row :: rest =>
      match summary_entry row with
      | Some e => e :: summary_of rest
      | None => summary_of rest
      end
  end.

(** ** Concrete inputs

    Small instances of the two interfaces and a few tables, on which the
    definitions above are evaluated. *)

(** A generator whose state counts the calls made since the last seeding.
    The first row of every normal draw is [z] standard deviations away from
    the mean, where [z] depends on the call; the other rows are at the
    mean. *)
Definition skewed_z (call : nat) : Q :=
  match call with
  | 0%nat => 4
  | 1%nat => -3
  | 4%nat => -4
  | 5%nat => -5
  | _ => 0
  end.

Definition skewed_normal (loc scale : Q) (size : nat) (calls : nat) : list Q * nat :=
  (map (fun row => match row with
                   | 0%nat => Qred (loc + scale * skewed_z calls)
                   | _ => loc
                   end) (seq 0 size),
   S calls).

Definition cycling_choice (options : list string) (size : nat) (calls : nat)
  : list string * nat :=
  (map (fun row => nth (row mod List.length options) options "") (seq 0 size),
   S calls).

Definition skewed_draws : NumpyRandom :=
  {| rng := nat;
     seed := fun _ _ => 0%nat;
     normal := skewed_normal;
     choice := cycling_choice;
     seed_resets := fun _ _ _ => eq_refl |}.

(** A parser that accepts no file: every upload is malformed. *)
Definition rejecting_parser : PandasIO :=
  {| read_csv := fun _ => Raise (ParserError "Error tokenizing data");
     read_excel := fun _ => Raise (ValueError "Excel file format cannot be determined") |}.

Definition broken_upload : UploadedFile :=
  {| name := "counties.xlsx"; content := [] |}.

(** A table with a region column and none of the three columns that the
    regional statistics name. *)
Definition survey_table : DataFrame :=
  [ ("Region", Object [Some "North"; Some "South"]);
    ("Income", Float64 [Some 41000; Some 52000]);
    ("Smoking_Rate", Float64 [Some 18; Some 21]);
    ("Population", Int64 [1200%Z; 3400%Z]) ].

(** A table with six numeric columns. *)
Definition six_column_table : DataFrame :=
  [ ("County", Object [Some "a"; Some "b"; Some "c"]);
    ("Region", Object [Some "West"; Some "South"; Some "West"]);
    ("Median_Income", Float64 [Some 40000; Some 50000; Some 60000]);
    ("Poverty_Rate", Float64 [Some 20; Some 15; Some 10]);
    ("Education_Level", Float64 [Some 1; Some 2; Some 3]);
    ("Cancer_Rate", Float64 [Some 140; Some 120; Some 110]);
    ("Lung_Cancer_Rate", Float64 [Some 60; Some 55; Some 50]);
    ("Breast_Cancer_Rate", Float64 [Some 2; Some 4; Some 6]) ].


(** Regions A, B and C with mean cancer rates 10, 10 and 5; the rows are
    not in the order of the labels and B has two rows. *)
Definition tied_table : DataFrame :=
  [ ("Region", Object [Some "C"; Some "B"; Some "A"; Some "B"]);
    ("Median_Income", Float64 [Some 1; Some 2; Some 3; Some 4]);
    ("Poverty_Rate", Float64 [Some 1; Some 2; Some 3; Some 4]);
    ("Cancer_Rate", Float64 [Some 5; Some 12; Some 10; Some 8]) ].

(** Regions A, B, C and D with mean cancer rates 7, 10, 5 and 5; the rows
    are not in the order of the labels. *)
Definition unranked_table : DataFrame :=
  [ ("Region", Object [Some "D"; Some "B"; Some "A"; Some "C"]);
    ("Median_Income", Float64 [Some 1; Some 2; Some 3; Some 4]);
    ("Poverty_Rate", Float64 [Some 1; Some 2; Some 3; Some 4]);
    ("Cancer_Rate", Float64 [Some 5; Some 10; Some 7; Some 5]) ].

(** A parser that reads [survey_table] in every file. *)
Definition accepting_parser : PandasIO :=
  {| read_csv := fun _ => Ok survey_table;
     read_excel := fun _ => Ok survey_table |}.

(** A table with six numeric columns whose third one is constant. *)
Definition flat_table : DataFrame :=
  [ ("Region", Object [Some "West"; Some "South"; Some "West"]);
    ("Median_Income", Float64 [Some 40000; Some 50000; Some 60000]);
    ("Poverty_Rate", Float64 [Some 20; Some 15; Some 10]);
    ("Education_Level", Float64 [Some 12; Some 12; Some 12]);
    ("Cancer_Rate", Float64 [Some 140; Some 120; Some 110]);
    ("Lung_Cancer_Rate", Float64 [Some 60; Some 55; Some 50]);
    ("Breast_Cancer_Rate", Float64 [Some 2; Some 4; Some 6]) ].

(** A table whose regions are integer codes. *)
Definition coded_table : DataFrame :=
  [ ("Region", Int64 [10%Z; 9%Z; 10%Z]);
    ("Median_Income", Float64 [Some 1; Some 2; Some 3]);
    ("Poverty_Rate", Float64 [Some 1; Some 2; Some 3]);
    ("Cancer_Rate", Float64 [Some 100; Some 90; Some 120]) ].

(** ** The preview, the histogram and the heat map *)

Definition n_rows (s : Series) : nat :=
  match s with
  | Float64 v => List.length v
  | Int64 v => List.length v
  | Object v => List.length v
  end.

(** [s.head()]: the first five cells. *)
Definition head_series (s : Series) : Series :=
  match s with
  | Float64 v => Float64 (firstn 5 v)
  | Int64 v => Int64 (firstn 5 v)
  | Object v => Object (firstn 5 v)
  end.

(** [df.head()], line 120. *)
Definition head (df : DataFrame) : DataFrame :=
  map (fun c => (fst c, head_series (snd c))) df.

(** [[col for col in df.columns if df[col].dtype in ['float64', 'int64']]],
    line 129. *)
Definition hist_options (df : DataFrame) : list string :=
  filter (fun col => match getitem df col with
                     | Ok s => is_numeric s
                     | Raise _ => false
                     end)
         (columns df).

(** Lines 128 to 132: the column whose distribution is drawn, chosen by a
    select box with its default index 0. *)
Definition distribution_analysis (df : DataFrame) : result (string * Series) :=
  hist_col <- selectbox (hist_options df) 0 ;;
  s <- getitem_selected df hist_col ;;
  match hist_col with
  | Some c => Ok (c, s)
  | None => Raise (KeyError "None")
  end.

(** Lines 29 and 30 of [streamlit_app.py]: the two select boxes over the
    numeric columns, with their default index 0. *)
Definition minimal_selection (df : DataFrame) : result (option string * option string) :=
  let numeric_df := select_dtypes df in
  x <- selectbox (columns numeric_df) 0 ;;
  y <- selectbox (columns numeric_df) 0 ;;
  Ok (x, y).

(** A function applied to the elements of a list with their positions. *)
Fixpoint mapi_from (A B : Type) (f : nat -> A -> B) (i : nat) (l : list A) : list B :=
  match l with
  | [] => []
  | a :: rest => f i a :: mapi_from f (S i) rest
  end.

(** [np.ones_like(corr, dtype=bool)] *)
Definition ones_like (m : list (string * list (string * option R))) : list (list bool) :=
  map (fun row => map (fun _ => true) (snd row)) m.

(** [np.triu(b)]: the cells below the diagonal are set to false. *)
Definition triu (b : list (list bool)) : list (list bool) :=
  mapi_from (fun i row => mapi_from (fun j x => if (j <? i)%nat then false else x) 0 row)
            0 b.

(** Line 145. *)
Definition heatmap_mask (m : list (string * list (string * option R))) : list (list bool) :=
  triu (ones_like m).

(** What [sns.heatmap(corr, mask=mask)] draws in a cell: the entry of the
    matrix where the mask is false, nothing where it is true. *)
Definition heatmap_cell (m : list (string * list (string * option R))) (i j : nat)
  : option (option R) :=
  match nth_error (heatmap_mask m) i with
  | Some row =>
      match nth_error row j with
      | Some false => matrix_at m i j
      | _ => None
      end
  | None => None
  end.

(** The cells of a column on the rows that hold a group key. *)
Fixpoint labelled_cells (K A : Type) (col : list (option K)) (values : list A)
  : list A :=
  match col, values with
  | Some _ :: col', v :: values' => v :: labelled_cells col' values'
  | None :: col', _ :: values' => labelled_cells col' values'
  | _, _ => []
  end.

(** The opposite of a coefficient; the opposite of NaN is NaN. *)
Definition negate (r : option R) : option R := option_map Ropp r.

(** The strengths in increasing order. *)
Definition strength_rank (s : strength) : nat :=
  match s with
  | Weak => 0
  | Moderate => 1
  | Strong => 2
  end.

(** * Properties *)

Unset Implicit Arguments.

(** ** The strength of a correlation *)

Local Open Scope R_scope.

Lemma InterpretStrength_strong (r : R) :
  InterpretStrength (Some r) = Strong <-> 0.7 < Rabs r.
Proof.
  unfold InterpretStrength.
  destruct (Rlt_dec 0.7 (Rabs r)); [tauto|].
  destruct (Rlt_dec 0.4 (Rabs r)); split; intros; try discriminate; tauto.
Qed.

Lemma InterpretStrength_moderate (r : R) :
  InterpretStrength (Some r) = Moderate <-> 0.4 < Rabs r <= 0.7.
Proof.
  unfold InterpretStrength.
  destruct (Rlt_dec 0.7 (Rabs r)).
  - split; intros; try discriminate; lra.
  - destruct (Rlt_dec 0.4 (Rabs r)); split; intros; try discriminate;
      try reflexivity; lra.
Qed.

Lemma InterpretStrength_weak (r : R) :
  InterpretStrength (Some r) = Weak <-> Rabs r <= 0.4.
Proof.
  unfold InterpretStrength.
  destruct (Rlt_dec 0.7 (Rabs r)).
  - split; intros; try discriminate; lra.
  - destruct (Rlt_dec 0.4 (Rabs r)); split; intros; try discriminate;
      try reflexivity; lra.
Qed.

(** C3.  For every real coefficient [r] the classification is "strong"
    exactly when [|r| > 0.7], "moderate" exactly when [0.4 < |r| <= 0.7]
    and "weak" otherwise; a value on a threshold falls in the lower class:
    0.70 is "moderate" and 0.40 is "weak" (and 0.75 is "strong", 0.39
    "weak"). *)
Theorem C3_InterpretStrength_thresholds :
  (forall r : R,
      (InterpretStrength (Some r) = Strong <-> 0.7 < Rabs r) /\
      (InterpretStrength (Some r) = Moderate <-> 0.4 < Rabs r <= 0.7) /\
      (InterpretStrength (Some r) = Weak <-> Rabs r <= 0.4)) /\
  InterpretStrength (Some 0.70) = Moderate /\
  InterpretStrength (Some 0.40) = Weak /\
  InterpretStrength (Some 0.75) = Strong /\
  InterpretStrength (Some 0.39) = Weak /\
  InterpretStrength (Some (-0.70)) = Moderate /\
  InterpretStrength (Some (-0.75)) = Strong /\
  InterpretStrength None = Weak /\
  strength_message (InterpretStrength (Some 0.70))
  = "**Moderate correlation detected.**"%string.
Proof.
  split.
  - intro r. split; [apply InterpretStrength_strong|].
    split; [apply InterpretStrength_moderate | apply InterpretStrength_weak].
  - repeat split.
    + apply InterpretStrength_moderate. rewrite Rabs_pos_eq; lra.
    + apply InterpretStrength_weak. rewrite Rabs_pos_eq; lra.
    + apply InterpretStrength_strong. rewrite Rabs_pos_eq; lra.
    + apply InterpretStrength_weak. rewrite Rabs_pos_eq; lra.
    + apply InterpretStrength_moderate. rewrite Rabs_left; lra.
    + apply InterpretStrength_strong. rewrite Rabs_left; lra.
    + assert (E : InterpretStrength (Some 0.70) = Moderate)
        by (apply InterpretStrength_moderate; rewrite Rabs_pos_eq; lra).
      now rewrite E.
Qed.

Local Close Scope R_scope.

(** ** The demo data generator *)

Section GeneratorFacts.

Context {RS : NumpyRandom}.

(** C2.  The generator is deterministic: it seeds the global generator
    with 42 before it draws and makes 100 rows, so two runs give the same
    table (same column names, same cells, same row order) whatever the
    state of the global generator was at each call; the state it leaves
    behind is the same as well, and so is the table of a second run made
    right after the first. *)
Theorem C2_load_demo_data_deterministic :
  forall ambient1 ambient2 : rng,
    fst (load_demo_data ambient1) = fst (load_demo_data ambient2) /\
    snd (load_demo_data ambient1) = snd (load_demo_data ambient2) /\
    fst (load_demo_data (snd (load_demo_data ambient1)))
      = fst (load_demo_data ambient1) /\
    columns (fst (load_demo_data ambient1))
      = ["County"; "Region"; "Median_Income"; "Poverty_Rate";
         "Education_Level"; "Cancer_Rate"; "Lung_Cancer_Rate";
         "Breast_Cancer_Rate"].
Proof.
  intros ambient1 ambient2.
  assert (Hindep : forall a b, load_demo_data a = load_demo_data b).
  { intros a b. unfold load_demo_data.
    now rewrite (seed_resets 42 a b). }
  split; [|split; [|split]].
  - now rewrite (Hindep ambient1 ambient2).
  - now rewrite (Hindep ambient1 ambient2).
  - now rewrite (Hindep (snd (load_demo_data ambient1)) ambient1).
  - unfold load_demo_data.
    repeat match goal with
           | |- context [let '(_, _) := ?d in _] => destruct d
           end.
    reflexivity.
Qed.

(** Whatever is drawn, no cell of [Cancer_Rate] is below 50: line 71. *)
Lemma Cancer_Rate_floored (ambient : rng) :
  exists cells,
    getitem (fst (load_demo_data ambient)) "Cancer_Rate" = Ok (float_column cells) /\
    forall v, In v cells -> 50 <= v.
Proof.
  unfold load_demo_data.
  repeat match goal with
         | |- context [let '(_, _) := ?d in _] => destruct d
         end.
  cbn [fst getitem]. cbn.
  eexists. split; [reflexivity|].
  intros v Hv. unfold maximum in Hv.
  apply in_map_iff in Hv. destruct Hv as [x [<- _]].
  apply Q.le_max_r.
Qed.



End GeneratorFacts.


(** Two runs of the generator on [skewed_draws], from the states 3 and 8
    of the global generator, give the same table. *)
Lemma C2_witness_skewed_draws :
  fst (@load_demo_data skewed_draws 3%nat) = fst (@load_demo_data skewed_draws 8%nat).
Proof.
  exact (proj1 (@C2_load_demo_data_deterministic skewed_draws 3%nat 8%nat)).
Defined.


(** ** Loading a table *)

Section LoaderFacts.

Context {RS : NumpyRandom} {IO : PandasIO}.

(** In the main application a file that does not parse is replaced by the
    demo table, with an error notice. *)
Lemma load_table_falls_back (f : UploadedFile) (use_demo : bool) (ambient : rng) (e : exn) :
  parse f = Raise e ->
  load_table (Some f) use_demo ambient
  = Continue (fst (load_demo_data ambient)) [st_error ("Error: " ++ exn_message e)].
Proof.
  unfold load_table. intros ->. reflexivity.
Qed.

(** The main application never ends its loading part on an exception. *)
Lemma load_table_never_raises (u : option UploadedFile) (use_demo : bool) (ambient : rng) :
  forall e, load_table u use_demo ambient <> Uncaught e.
Proof.
  intros e. unfold load_table.
  destruct u as [f|]; [|destruct use_demo; discriminate].
  destruct (parse f); discriminate.
Qed.

(** In the minimal application the exception of the parser is the outcome. *)
Lemma load_table_minimal_raises (f : UploadedFile) (e : exn) :
  read_excel f = Raise e ->
  load_table_minimal (Some f) = Uncaught e.
Proof.
  unfold load_table_minimal. intros ->. reflexivity.
Qed.

End LoaderFacts.

(** C6.  The claim holds of [streamlit_cancer_app.py] and not of
    [streamlit_app.py]: on a file that the parser rejects, the first
    continues with the demo table and an error notice, the second lets the
    exception of [read_excel] through and has no table. *)
Theorem C6_minimal_app_lets_parse_error_through :
  @load_table skewed_draws rejecting_parser (Some broken_upload) false 7%nat
  = Continue (fst (@load_demo_data skewed_draws 7%nat))
             [st_error "Error: Excel file format cannot be determined"] /\
  @load_table_minimal rejecting_parser (Some broken_upload)
  = Uncaught (ValueError "Excel file format cannot be determined").
Proof.
  split.
  - exact (@load_table_falls_back skewed_draws rejecting_parser broken_upload
             false 7%nat _ eq_refl).
  - exact (@load_table_minimal_raises rejecting_parser broken_upload _ eq_refl).
Qed.

(** ** The relationship explorer *)

Lemma selectbox_ok (options : list string) (index : nat) (o : option string) :
  selectbox options index = Ok o ->
  (options = [] /\ o = None) \/ (exists c, o = Some c /\ nth_error options index = Some c).
Proof.
  unfold selectbox. destruct options as [|h t]; intros H.
  - left. split; congruence.
  - right. destruct (nth_error (h :: t) index) as [c|]; [|discriminate].
    exists c. split; congruence.
Qed.

Lemma getitem_unique (df : DataFrame) (c : string) (s : Series) :
  NoDup (columns df) -> In (c, s) df -> getitem df c = Ok s.
Proof.
  induction df as [|[c' s'] rest IH]; intros Hnd Hin; [contradiction|].
  cbn in Hnd. inversion Hnd as [|? ? Hnotin Hnd']; subst.
  cbn [getitem]. destruct Hin as [Heq|Hin].
  - inversion Heq; subst. now rewrite String.eqb_refl.
  - destruct (String.eqb_spec c c') as [->|_].
    + exfalso. apply Hnotin. unfold columns.
      change c' with (fst (c', s)). now apply in_map.
    + now apply IH.
Qed.

Lemma select_dtypes_nth (df : DataFrame) (i : nat) (c : string) :
  nth_error (columns (select_dtypes df)) i = Some c ->
  exists s, In (c, s) df /\ is_numeric s = true.
Proof.
  unfold columns. intros H.
  rewrite nth_error_map in H.
  destruct (nth_error (select_dtypes df) i) as [[c' s]|] eqn:E; [|discriminate].
  cbn in H. inversion H; subst.
  apply nth_error_In in E. unfold select_dtypes in E.
  apply filter_In in E. destruct E as [Hin Hnum]. now exists s.
Qed.

Lemma to_numeric_numeric (s : Series) :
  is_numeric s = true -> exists v, to_numeric s = Ok v.
Proof.
  destruct s; cbn; intros H; try discriminate; eexists; reflexivity.
Qed.

(** C10.  The explorer, with its default selections (positions 2 and 5 of
    the numeric columns), returns a result only on tables with at least six
    numeric columns: with between one and five the select box raises, with
    none the lookup of the selected column does.  It does return on a
    table with at least six numeric columns and distinct column names, and
    it fails on [survey_table], which has a column named Region and three
    numeric columns. *)
Theorem C10_relationship_explorer_needs_six_numeric_columns :
  (forall df r,
      relationship_explorer df = Ok r ->
      (6 <= List.length (columns (select_dtypes df)))%nat) /\
  (forall df,
      (0 < List.length (columns (select_dtypes df)) < 6)%nat ->
      exists msg, relationship_explorer df = Raise (StreamlitAPIException msg)) /\
  (forall df,
      NoDup (columns df) ->
      (6 <= List.length (columns (select_dtypes df)))%nat ->
      exists r, relationship_explorer df = Ok r /\
                x_col r = nth_error (columns (select_dtypes df)) 2 /\
                y_col r = nth_error (columns (select_dtypes df)) 5) /\
  (has_column "Region" survey_table = true /\
   columns (select_dtypes survey_table) = ["Income"; "Smoking_Rate"; "Population"] /\
   succeeds (relationship_explorer survey_table) = false).
Proof.
  split; [|split; [|split]].
  - intros df r H. unfold relationship_explorer in H.
    destruct (selectbox (columns (select_dtypes df)) 2) as [x|] eqn:Ex;
      [|discriminate].
    destruct (selectbox (columns (select_dtypes df)) 5) as [y|] eqn:Ey;
      [|discriminate].
    cbn [bind] in H.
    apply selectbox_ok in Ey. destruct Ey as [[Hnil ->]|[c [-> Hc]]].
    + apply selectbox_ok in Ex. destruct Ex as [[_ ->]|[c [_ Hc]]].
      * cbn in H. discriminate.
      * rewrite Hnil in Hc. discriminate.
    + assert (5 < List.length (columns (select_dtypes df)))%nat; [|lia].
      apply nth_error_Some. congruence.
  - intros df [Hpos Hlt]. unfold relationship_explorer.
    set (opts := columns (select_dtypes df)) in *.
    assert (E5 : nth_error opts 5 = None) by (apply nth_error_None; lia).
    unfold selectbox at 2. unfold selectbox at 1.
    destruct opts as [|h t]; [cbn in Hpos; lia|].
    rewrite E5.
    destruct (nth_error (h :: t) 2); cbn [bind]; eexists; reflexivity.
  - intros df Hnd Hlen. unfold relationship_explorer.
    set (opts := columns (select_dtypes df)) in *.
    destruct (nth_error opts 2) as [cx|] eqn:Ex;
      [|apply nth_error_None in Ex; lia].
    destruct (nth_error opts 5) as [cy|] eqn:Ey;
      [|apply nth_error_None in Ey; lia].
    assert (Sx : selectbox opts 2 = Ok (Some cx)).
    { unfold selectbox. destruct opts; [cbn in Hlen; lia|]. now rewrite Ex. }
    assert (Sy : selectbox opts 5 = Ok (Some cy)).
    { unfold selectbox. destruct opts; [cbn in Hlen; lia|]. now rewrite Ey. }
    rewrite Sx, Sy. cbn [bind getitem_selected].
    destruct (select_dtypes_nth df 2 cx Ex) as [sx [Hinx Hnx]].
    destruct (select_dtypes_nth df 5 cy Ey) as [sy [Hiny Hny]].
    rewrite (getitem_unique df cx sx Hnd Hinx), (getitem_unique df cy sy Hnd Hiny).
    cbn [bind]. unfold Series_corr.
    destruct (to_numeric_numeric sx Hnx) as [vx ->].
    destruct (to_numeric_numeric sy Hny) as [vy ->].
    cbn [bind]. eexists. split; [reflexivity|]. cbn. split; reflexivity.
  - split; [reflexivity|]. split; reflexivity.
Qed.

(** The explorer returns on [six_column_table]. *)
Lemma C10_witness_six_columns :
  exists r, relationship_explorer six_column_table = Ok r /\
            x_col r = Some "Education_Level" /\
            y_col r = Some "Breast_Cancer_Rate".
Proof.
  destruct C10_relationship_explorer_needs_six_numeric_columns
    as [_ [_ [Htotal _]]].
  apply (Htotal six_column_table).
  - cbn. repeat constructor; cbn; intuition discriminate.
  - cbn. lia.
Defined.

(** ** Grouping *)

Section GroupByFacts.

Variable K : Type.
Variable cmp : K -> K -> comparison.

Hypothesis cmp_eq_iff : forall a b, cmp a b = Eq <-> a = b.
Hypothesis cmp_antisym : forall a b, cmp b a = CompOpp (cmp a b).
Hypothesis cmp_lt_trans : forall a b c, cmp a b = Lt -> cmp b c = Lt -> cmp a c = Lt.

Let lt (a b : K) : Prop := cmp a b = Lt.

Lemma insert_key_In (k x : K) (l : list K) :
  In x (insert_key cmp k l) <-> x = k \/ In x l.
Proof.
  induction l as [|h t IH]; cbn [insert_key].
  - cbn. intuition.
  - destruct (cmp k h) eqn:E.
    + apply cmp_eq_iff in E. subst h. cbn. intuition.
    + cbn. intuition.
    + cbn [In]. rewrite IH. intuition.
Qed.

Lemma group_keys_In (k : K) (col : list (option K)) :
  In k (group_keys cmp col) <-> In (Some k) col.
Proof.
  induction col as [|[k'|] rest IH]; cbn [group_keys].
  - tauto.
  - rewrite insert_key_In, IH. cbn. split.
    + intros [->|H]; auto.
    + intros [H|H]; [inversion H; auto | auto].
  - rewrite IH. cbn. split; [auto|]. intros [H|H]; [discriminate | auto].
Qed.

Lemma insert_key_sorted (k : K) (l : list K) :
  StronglySorted lt l -> StronglySorted lt (insert_key cmp k l).
Proof.
  induction 1 as [|h t Hs IH Hall]; cbn [insert_key].
  - repeat constructor.
  - destruct (cmp k h) eqn:E.
    + now constructor.
    + constructor; [now constructor|].
      constructor; [exact E|].
      eapply Forall_impl; [|exact Hall].
      intros x Hx. unfold lt in *. eapply cmp_lt_trans; eassumption.
    + constructor; [exact IH|].
      apply Forall_forall. intros x Hx.
      apply insert_key_In in Hx. destruct Hx as [->|Hx].
      * unfold lt. rewrite cmp_antisym, E. reflexivity.
      * rewrite Forall_forall in Hall. now apply Hall.
Qed.

Lemma group_keys_sorted (col : list (option K)) :
  StronglySorted lt (group_keys cmp col).
Proof.
  induction col as [|[k|] rest IH]; cbn [group_keys].
  - constructor.
  - now apply insert_key_sorted.
  - exact IH.
Qed.

Lemma cmp_irrefl (a : K) : ~ lt a a.
Proof.
  unfold lt. intros H.
  assert (E : cmp a a = Eq) by now apply cmp_eq_iff.
  congruence.
Qed.

Lemma sorted_NoDup (l : list K) : StronglySorted lt l -> NoDup l.
Proof.
  induction 1 as [|h t Hs IH Hall]; constructor; [|exact IH].
  intros Hin. rewrite Forall_forall in Hall.
  exact (cmp_irrefl h (Hall h Hin)).
Qed.

End GroupByFacts.

(** The order of Python on strings, as [string_compare] has it. *)
Lemma label_lt_irrefl (a : string) : ~ String_as_OT.lt a a.
Proof.
  exact (@StrictOrder_Irreflexive _ _ String_as_OT.lt_strorder a).
Qed.

Lemma string_compare_lt_trans (a b c : string) :
  string_compare a b = Lt -> string_compare b c = Lt -> string_compare a c = Lt.
Proof.
  exact (@StrictOrder_Transitive _ _ String_as_OT.lt_strorder a b c).
Qed.

Lemma string_compare_eq_iff (a b : string) : string_compare a b = Eq <-> a = b.
Proof.
  unfold string_compare.
  destruct (String_as_OT.compare_spec a b) as [H|H|H]; split; intros E;
    try discriminate; try assumption; try reflexivity;
    subst; exfalso; exact (label_lt_irrefl _ H).
Qed.

Lemma string_compare_antisym (a b : string) :
  string_compare b a = CompOpp (string_compare a b).
Proof.
  unfold string_compare.
  destruct (String_as_OT.compare_spec a b) as [H|H|H];
    destruct (String_as_OT.compare_spec b a) as [H'|H'|H'];
    cbn [CompOpp]; try reflexivity;
    unfold String_as_OT.eq in *; subst; exfalso;
    first [ exact (label_lt_irrefl _ H)
          | exact (label_lt_irrefl _ H')
          | exact (label_lt_irrefl _ (string_compare_lt_trans _ _ _ H H')) ].
Qed.

(** ** Regional statistics *)

Lemma getitem_has_column (df : DataFrame) (c : string) (s : Series) :
  getitem df c = Ok s -> has_column c df = true.
Proof.
  unfold has_column, columns.
  induction df as [|[c' s'] rest IH]; cbn [getitem map existsb fst]; [discriminate|].
  destruct (String.eqb c c'); [reflexivity|]. exact IH.
Qed.

Lemma has_column_getitem (df : DataFrame) (c : string) :
  has_column c df = true -> exists s, getitem df c = Ok s.
Proof.
  unfold has_column, columns.
  induction df as [|[c' s'] rest IH]; cbn [getitem map existsb fst]; [discriminate|].
  destruct (String.eqb c c'); [intros _; now exists s'|]. exact IH.
Qed.

(** The statistics are there only when the table has the three columns
    that the aggregation names. *)
Lemma regional_stats_needs_columns (df : DataFrame) (stats : list RegionStats) :
  regional_stats df = Ok stats ->
  has_column "Region" df = true /\
  has_column "Median_Income" df = true /\
  has_column "Poverty_Rate" df = true /\
  has_column "Cancer_Rate" df = true.
Proof.
  unfold regional_stats. intros H.
  destruct (getitem df "Region") eqn:E1; [|discriminate].
  destruct (getitem df "Median_Income") eqn:E2; [|discriminate].
  destruct (getitem df "Poverty_Rate") eqn:E3; [|discriminate].
  destruct (getitem df "Cancer_Rate") eqn:E4; [|discriminate].
  repeat split; eapply getitem_has_column; eassumption.
Qed.

(** C9.  The claim does not hold of the code: the aggregation names the
    columns Median_Income, Poverty_Rate and Cancer_Rate.  [survey_table]
    has a column named Region and other numeric columns, and the regional
    tab raises a [KeyError] on it instead of making its statistics. *)
Theorem C9_regional_insights_raises_without_metric_columns :
  has_column "Region" survey_table = true /\
  regional_stats survey_table = Raise (KeyError "Median_Income") /\
  regional_insights survey_table = Raise (KeyError "Median_Income").
Proof.
  split; [reflexivity|]. split; reflexivity.
Qed.

Lemma same_key_label (l : string) (c : option string) :
  same_key string_compare l c
  = match c with Some l' => String.eqb l l' | None => false end.
Proof.
  destruct c as [l'|]; [|reflexivity]. cbn [same_key].
  destruct (String.eqb_spec l l') as [->|Hne].
  - now rewrite (proj2 (string_compare_eq_iff l' l') eq_refl).
  - destruct (string_compare l l') eqn:E; try reflexivity.
    apply string_compare_eq_iff in E. contradiction.
Qed.

Lemma group_rows_region_cells (l : string) (labels : list (option string))
    (values : list float64) :
  group_rows string_compare l labels values = region_cells l labels values.
Proof.
  unfold region_cells. revert values.
  induction labels as [|c labels IH]; intros [|v values]; try reflexivity.
  cbn [group_rows combine filter fst]. rewrite same_key_label.
  destruct (match c with Some l' => String.eqb l l' | None => false end);
    cbn [map snd]; now rewrite IH.
Qed.





Lemma regional_stats_labelled (df : DataFrame) (labels : list (option string))
    (income poverty cancer : list float64) :
  getitem df "Region" = Ok (Object labels) ->
  numeric_column df "Median_Income" = Ok income ->
  numeric_column df "Poverty_Rate" = Ok poverty ->
  numeric_column df "Cancer_Rate" = Ok cancer ->
  regional_stats df
  = Ok (aggregate string_compare KStr labels income poverty cancer).
Proof.
  unfold regional_stats, numeric_column. intros -> Hi Hp Hc.
  destruct (getitem df "Median_Income") as [si|]; [|discriminate].
  destruct (getitem df "Poverty_Rate") as [sp|]; [|discriminate].
  destruct (getitem df "Cancer_Rate") as [sc|]; [|discriminate].
  cbn [bind] in *. rewrite Hi, Hp, Hc. reflexivity.
Qed.



(** ** The highest and the lowest region *)

Section FirstBest.

Variable better : Q -> Q -> bool.

(** [le v m]: the value [v] is not better than [m]. *)
Variable le : Q -> Q -> Prop.

Hypothesis better_true : forall v b, better v b = true -> ~ le v b.
Hypothesis better_false : forall v b, better v b = false -> le v b.
Hypothesis le_refl : forall a, le a a.
Hypothesis le_trans : forall a b c, le a b -> le b c -> le a c.
Hypothesis le_total : forall a b, le a b \/ le b a.

Lemma not_le_le (a b : Q) : ~ le a b -> le b a.
Proof. destruct (le_total a b); tauto. Qed.

(** The scan returns either the best value it started with, which then
    no cell beats, or the first cell that no cell beats, which beats the
    value it started with and every cell before it. *)
Lemma first_best_spec (l : list float64) :
  forall i best j m,
    first_best better l i best = Some (j, m) ->
    (best = Some (j, m) /\
     forall k v, nth_error l k = Some (Some v) -> le v m) \/
    ((i <= j)%nat /\ nth_error l (j - i) = Some (Some m) /\
     (forall k v, nth_error l k = Some (Some v) -> le v m) /\
     (forall k v, nth_error l k = Some (Some v) -> (k < j - i)%nat -> ~ le m v) /\
     (forall jb b, best = Some (jb, b) -> ~ le m b)).
Proof.
  induction l as [|c rest IH]; intros i best j m H; cbn [first_best] in H.
  - left. split; [exact H|]. intros [|k] v Hk; discriminate.
  - destruct c as [v0|].
    + destruct best as [[jb b]|].
      * destruct (better v0 b) eqn:Eb.
        -- apply better_true in Eb.
           destruct (IH _ _ _ _ H) as [[E Hall]|[Hij [Hn [Hall [Hfirst Hbest]]]]].
           ++ inversion E; subst. right.
              replace (j - j)%nat with 0%nat by lia.
              split; [lia|]. split; [reflexivity|]. split; [|split].
              ** intros [|k] v Hk; [inversion Hk; subst; apply le_refl|].
                 exact (Hall k v Hk).
              ** intros k v _ Hlt. lia.
              ** intros jb' b' E'. now inversion E'; subst.
           ++ right. replace (j - i)%nat with (S (j - S i)) by lia.
              split; [lia|]. split; [exact Hn|].
              assert (Hm : ~ le m v0) by exact (Hbest i v0 eq_refl).
              split; [|split].
              ** intros [|k] v Hk; [inversion Hk; subst; now apply not_le_le|].
                 exact (Hall k v Hk).
              ** intros [|k] v Hk Hlt; [now inversion Hk; subst|].
                 apply (Hfirst k v Hk). lia.
              ** intros jb' b' E'. inversion E'; subst. intros Hmb.
                 apply Hm. apply (le_trans _ _ _ Hmb). now apply not_le_le.
        -- assert (Hv0 : le v0 b) by now apply better_false.
           destruct (IH _ _ _ _ H) as [[E Hall]|[Hij [Hn [Hall [Hfirst Hbest]]]]].
           ++ inversion E; subst. left. split; [reflexivity|].
              intros [|k] v Hk; [now inversion Hk; subst|].
              exact (Hall k v Hk).
           ++ right. replace (j - i)%nat with (S (j - S i)) by lia.
              split; [lia|]. split; [exact Hn|].
              assert (Hm : ~ le m b) by exact (Hbest jb b eq_refl).
              split; [|split].
              ** intros [|k] v Hk; [|exact (Hall k v Hk)].
                 inversion Hk; subst. apply (le_trans _ _ _ Hv0).
                 now apply not_le_le.
              ** intros [|k] v Hk Hlt; [|apply (Hfirst k v Hk); lia].
                 inversion Hk; subst. intros Hmv. apply Hm.
                 exact (le_trans _ _ _ Hmv Hv0).
              ** exact Hbest.
      * destruct (IH _ _ _ _ H) as [[E Hall]|[Hij [Hn [Hall [Hfirst Hbest]]]]].
        -- inversion E; subst. right.
           replace (j - j)%nat with 0%nat by lia.
           split; [lia|]. split; [reflexivity|]. split; [|split].
           ++ intros [|k] v Hk; [inversion Hk; subst; apply le_refl|].
              exact (Hall k v Hk).
           ++ intros k v _ Hlt. lia.
           ++ intros jb b E'. discriminate.
        -- right. replace (j - i)%nat with (S (j - S i)) by lia.
           split; [lia|]. split; [exact Hn|].
           assert (Hm : ~ le m v0) by exact (Hbest i v0 eq_refl).
           split; [|split].
           ++ intros [|k] v Hk; [inversion Hk; subst; now apply not_le_le|].
              exact (Hall k v Hk).
           ++ intros [|k] v Hk Hlt; [now inversion Hk; subst|].
              apply (Hfirst k v Hk). lia.
           ++ intros jb b E'. discriminate.
    + destruct (IH _ _ _ _ H) as [[E Hall]|[Hij [Hn [Hall [Hfirst Hbest]]]]].
      * left. split; [exact E|].
        intros [|k] v Hk; [discriminate|]. exact (Hall k v Hk).
      * right. replace (j - i)%nat with (S (j - S i)) by lia.
        split; [lia|]. split; [exact Hn|]. split; [|split].
        -- intros [|k] v Hk; [discriminate|]. exact (Hall k v Hk).
        -- intros [|k] v Hk Hlt; [discriminate|]. apply (Hfirst k v Hk). lia.
        -- exact Hbest.
Qed.

(** From nothing, the scan returns the position of the first cell that no
    cell beats. *)
Lemma first_best_first (l : list float64) (j : nat) (m : Q) :
  first_best better l 0 None = Some (j, m) ->
  nth_error l j = Some (Some m) /\
  (forall k v, nth_error l k = Some (Some v) -> le v m) /\
  (forall k v, nth_error l k = Some (Some v) -> (k < j)%nat -> ~ le m v).
Proof.
  intros H. destruct (first_best_spec l 0 None j m H)
    as [[E _]|[_ [Hn [Hall [Hfirst _]]]]]; [discriminate|].
  rewrite Nat.sub_0_r in *. auto.
Qed.

Lemma first_best_started (l : list float64) :
  forall i b, exists r, first_best better l i (Some b) = Some r.
Proof.
  induction l as [|[v|] rest IH]; intros i [jb b]; cbn [first_best].
  - eexists. reflexivity.
  - destruct (better v b); apply IH.
  - apply IH.
Qed.

(** The scan finds a cell as soon as one holds a value. *)
Lemma first_best_found (l : list float64) :
  forall i k v, nth_error l k = Some (Some v) ->
                exists r, first_best better l i None = Some r.
Proof.
  induction l as [|[v0|] rest IH]; intros i k v Hk; cbn [first_best].
  - destruct k; discriminate.
  - apply first_best_started.
  - destruct k as [|k]; [discriminate|]. exact (IH (S i) k v Hk).
Qed.

End FirstBest.

Lemma StronglySorted_nth (A : Type) (R : A -> A -> Prop) (l : list A) :
  StronglySorted R l ->
  forall i j a b, (i < j)%nat ->
    nth_error l i = Some a -> nth_error l j = Some b -> R a b.
Proof.
  induction 1 as [|x l Hs IH Hall]; intros i j a b Hij Ha Hb.
  - destruct i; discriminate.
  - destruct j as [|j]; [lia|]. cbn in Hb. destruct i as [|i].
    + cbn in Ha. inversion Ha; subst.
      rewrite Forall_forall in Hall. apply Hall.
      eapply nth_error_In; eassumption.
    + cbn in Ha. apply (IH i j); [lia | assumption | assumption].
Qed.

Lemma StronglySorted_map (A B : Type) (R : A -> A -> Prop) (R' : B -> B -> Prop)
    (f : A -> B) (l : list A) :
  (forall a b, R a b -> R' (f a) (f b)) ->
  StronglySorted R l -> StronglySorted R' (map f l).
Proof.
  intros Hf. induction 1 as [|x l Hs IH Hall]; cbn [map]; constructor.
  - exact IH.
  - apply Forall_forall. intros y Hy. apply in_map_iff in Hy.
    destruct Hy as [a [<- Ha]]. apply Hf.
    rewrite Forall_forall in Hall. now apply Hall.
Qed.

(** The rows of the statistics are in the ascending order of the labels. *)
Lemma aggregate_sorted (labels : list (option string))
    (income poverty cancer : list float64) :
  StronglySorted region_before
    (aggregate string_compare KStr labels income poverty cancer).
Proof.
  unfold aggregate.
  apply StronglySorted_map with (R := fun a b => string_compare a b = Lt).
  - intros a b H. exact H.
  - apply (group_keys_sorted string string_compare string_compare_eq_iff
             string_compare_antisym string_compare_lt_trans).
Qed.

Section Extremes.

Variable better : Q -> Q -> bool.
Variable le : Q -> Q -> Prop.

Hypothesis better_true : forall v b, better v b = true -> ~ le v b.
Hypothesis better_false : forall v b, better v b = false -> le v b.
Hypothesis le_refl : forall a, le a a.
Hypothesis le_trans : forall a b c, le a b -> le b c -> le a c.
Hypothesis le_total : forall a b, le a b \/ le b a.

(** The reported row holds a value that no row beats, and it comes before
    every other row that holds as good a value. *)
Lemma extreme_by_spec (stats : list RegionStats) (h : RegionStats) :
  StronglySorted region_before stats ->
  extreme_by better stats = Ok h ->
  In h stats /\
  exists m, Cancer_Rate h = Some m /\
    forall r v, In r stats -> Cancer_Rate r = Some v ->
      le v m /\ (le m v -> key_le (Region h) (Region r)).
Proof.
  intros Hsorted H. unfold extreme_by in H.
  destruct (first_best better (map Cancer_Rate stats) 0 None) as [[j m]|] eqn:E;
    [|discriminate].
  cbn [idx_of bind] in H. unfold loc in H.
  destruct (nth_error stats j) as [h'|] eqn:Ej; [|discriminate].
  inversion H; subst h'.
  destruct (first_best_first better le better_true better_false le_refl le_trans
              le_total _ _ _ E) as [Hj [Hall Hfirst]].
  rewrite nth_error_map, Ej in Hj. cbn in Hj. inversion Hj as [Hm].
  split; [eapply nth_error_In; eassumption|].
  exists m. split; [exact Hm|].
  intros r v Hr Hv. apply In_nth_error in Hr. destruct Hr as [k Hk].
  assert (Hkv : nth_error (map Cancer_Rate stats) k = Some (Some v)).
  { rewrite nth_error_map, Hk. cbn. now rewrite Hv. }
  split; [exact (Hall k v Hkv)|].
  intros Hmv. destruct (Nat.lt_trichotomy k j) as [Hlt|[Heq|Hgt]].
  - exfalso. exact (Hfirst k v Hkv Hlt Hmv).
  - subst k. left. congruence.
  - right. exact (StronglySorted_nth _ _ _ Hsorted j k h r Hgt Ej Hk).
Qed.

(** An extreme is reported as soon as a row holds a value. *)
Lemma extreme_by_found (stats : list RegionStats) (r : RegionStats) (v : Q) :
  In r stats -> Cancer_Rate r = Some v ->
  exists h, extreme_by better stats = Ok h.
Proof.
  intros Hr Hv. apply In_nth_error in Hr. destruct Hr as [k Hk].
  assert (Hkv : nth_error (map Cancer_Rate stats) k = Some (Some v)).
  { rewrite nth_error_map, Hk. cbn. now rewrite Hv. }
  destruct (first_best_found better _ 0%nat k v Hkv) as [[j m] E].
  destruct (first_best_first better le better_true better_false le_refl le_trans
              le_total _ _ _ E) as [Hj _].
  unfold extreme_by. rewrite E. cbn [idx_of bind]. unfold loc.
  rewrite nth_error_map in Hj.
  destruct (nth_error stats j) as [h|]; [|discriminate].
  now exists h.
Qed.

End Extremes.

Lemma Qgtb_true (v b : Q) : Qgtb v b = true -> ~ v <= b.
Proof.
  unfold Qgtb. intros H Hle. apply Qle_bool_iff in Hle.
  rewrite Hle in H. discriminate.
Qed.

Lemma Qgtb_false (v b : Q) : Qgtb v b = false -> v <= b.
Proof.
  unfold Qgtb. intros H. apply Qle_bool_iff.
  destruct (Qle_bool v b); [reflexivity | discriminate].
Qed.

Lemma Qle_total (a b : Q) : a <= b \/ b <= a.
Proof.
  destruct (Qlt_le_dec a b) as [H|H]; [left; now apply Qlt_le_weak | now right].
Qed.

Lemma highest_region_spec (stats : list RegionStats) (h : RegionStats) :
  StronglySorted region_before stats ->
  highest_region stats = Ok h ->
  In h stats /\
  exists m, Cancer_Rate h = Some m /\
    forall r v, In r stats -> Cancer_Rate r = Some v ->
      v <= m /\ (m <= v -> key_le (Region h) (Region r)).
Proof.
  apply (extreme_by_spec Qgtb Qle Qgtb_true Qgtb_false Qle_refl Qle_trans Qle_total).
Qed.

Lemma lowest_region_spec (stats : list RegionStats) (h : RegionStats) :
  StronglySorted region_before stats ->
  lowest_region stats = Ok h ->
  In h stats /\
  exists m, Cancer_Rate h = Some m /\
    forall r v, In r stats -> Cancer_Rate r = Some v ->
      m <= v /\ (v <= m -> key_le (Region h) (Region r)).
Proof.
  apply (extreme_by_spec Qltb (fun v m => m <= v)).
  - intros v b. apply Qgtb_true.
  - intros v b. apply Qgtb_false.
  - intros a. apply Qle_refl.
  - intros a b c Hab Hbc. exact (Qle_trans _ _ _ Hbc Hab).
  - intros a b. destruct (Qle_total a b); tauto.
Qed.

(** ** The regions that are reported *)

Lemma regional_stats_inv (df : DataFrame) (labels : list (option string))
    (stats : list RegionStats) :
  getitem df "Region" = Ok (Object labels) ->
  regional_stats df = Ok stats ->
  exists income poverty cancer,
    stats = aggregate string_compare KStr labels income poverty cancer.
Proof.
  unfold regional_stats. intros -> H. cbn [bind] in H.
  destruct (getitem df "Median_Income") as [si|]; [|discriminate].
  destruct (getitem df "Poverty_Rate") as [sp|]; [|discriminate].
  destruct (getitem df "Cancer_Rate") as [sc|]; [|discriminate].
  cbn [bind] in H.
  destruct (to_numeric si) as [income|]; [|discriminate].
  destruct (to_numeric sp) as [poverty|]; [|discriminate].
  destruct (to_numeric sc) as [cancer|]; [|discriminate].
  cbn [bind] in H. inversion H. now exists income, poverty, cancer.
Qed.

Lemma highest_region_found (stats : list RegionStats) (r : RegionStats) (v : Q) :
  In r stats -> Cancer_Rate r = Some v -> exists h, highest_region stats = Ok h.
Proof.
  apply (extreme_by_found Qgtb Qle Qgtb_true Qgtb_false Qle_refl Qle_trans Qle_total).
Qed.

Lemma lowest_region_found (stats : list RegionStats) (r : RegionStats) (v : Q) :
  In r stats -> Cancer_Rate r = Some v -> exists h, lowest_region stats = Ok h.
Proof.
  apply (extreme_by_found Qltb (fun v m => m <= v)).
  - intros a b. apply Qgtb_true.
  - intros a b. apply Qgtb_false.
  - intros a. apply Qle_refl.
  - intros a b c Hab Hbc. exact (Qle_trans _ _ _ Hbc Hab).
  - intros a b. destruct (Qle_total a b); tauto.
Qed.

(** C8, as amended.  The scripts do not rank the regions.  The rows of
    the regional statistics are in the ascending order of the region
    labels, whatever the means; the region reported as the highest
    (lowest) holds the largest (smallest) mean cancer rate and, among the
    regions that hold the same mean, has the smallest label; and both are
    reported as soon as one region has a mean.  With A:10, B:10 and C:5
    the highest region is A and the lowest is C; with A:7, B:10, C:5 and
    D:5 the highest is B and the lowest is C. *)
Theorem C8_extremes_are_first_among_ties :
  (forall df labels stats,
      getitem df "Region" = Ok (Object labels) ->
      regional_stats df = Ok stats ->
      StronglySorted region_before stats /\
      (forall h, highest_region stats = Ok h ->
         In h stats /\ exists m, Cancer_Rate h = Some m /\
           forall r v, In r stats -> Cancer_Rate r = Some v ->
             v <= m /\ (v == m -> key_le (Region h) (Region r))) /\
      (forall l, lowest_region stats = Ok l ->
         In l stats /\ exists m, Cancer_Rate l = Some m /\
           forall r v, In r stats -> Cancer_Rate r = Some v ->
             m <= v /\ (v == m -> key_le (Region l) (Region r))) /\
      (forall r v, In r stats -> Cancer_Rate r = Some v ->
         exists h l, highest_region stats = Ok h /\ lowest_region stats = Ok l)) /\
  (exists stats h l,
      regional_stats tied_table = Ok stats /\
      map Region stats = [KStr "A"; KStr "B"; KStr "C"] /\
      highest_region stats = Ok h /\ Region h = KStr "A" /\
      lowest_region stats = Ok l /\ Region l = KStr "C") /\
  (exists stats h l,
      regional_stats unranked_table = Ok stats /\
      map Region stats = [KStr "A"; KStr "B"; KStr "C"; KStr "D"] /\
      highest_region stats = Ok h /\ Region h = KStr "B" /\
      lowest_region stats = Ok l /\ Region l = KStr "C").
Proof.
  split; [|split].
  - intros df labels stats Hregion Hstats.
    destruct (regional_stats_inv df labels stats Hregion Hstats)
      as [income [poverty [cancer ->]]].
    set (stats := aggregate string_compare KStr labels income poverty cancer).
    assert (Hsorted : StronglySorted region_before stats)
      by apply aggregate_sorted.
    split; [exact Hsorted|]. split; [|split].
    + intros h Hh.
      destruct (highest_region_spec stats h Hsorted Hh) as [Hin [m [Hm Hall]]].
      split; [exact Hin|]. exists m. split; [exact Hm|].
      intros r v Hr Hv. destruct (Hall r v Hr Hv) as [Hle Htie].
      split; [exact Hle|]. intros E. apply Htie. rewrite E. apply Qle_refl.
    + intros l Hl.
      destruct (lowest_region_spec stats l Hsorted Hl) as [Hin [m [Hm Hall]]].
      split; [exact Hin|]. exists m. split; [exact Hm|].
      intros r v Hr Hv. destruct (Hall r v Hr Hv) as [Hle Htie].
      split; [exact Hle|]. intros E. apply Htie. rewrite E. apply Qle_refl.
    + intros r v Hr Hv.
      destruct (highest_region_found stats r v Hr Hv) as [h Hh].
      destruct (lowest_region_found stats r v Hr Hv) as [l Hl].
      now exists h, l.
  - eexists. eexists. eexists.
    split; [vm_compute; reflexivity|].
    split; [reflexivity|]. split; [vm_compute; reflexivity|].
    split; [reflexivity|]. split; [vm_compute; reflexivity | reflexivity].
  - eexists. eexists. eexists.
    split; [vm_compute; reflexivity|].
    split; [reflexivity|]. split; [vm_compute; reflexivity|].
    split; [reflexivity|]. split; [vm_compute; reflexivity | reflexivity].
Qed.

(** On [tied_table] the rows are in the order of the labels and the
    highest region holds a mean that no region exceeds. *)
Lemma C8_witness_tied_table :
  exists stats h m,
    regional_stats tied_table = Ok stats /\
    StronglySorted region_before stats /\
    highest_region stats = Ok h /\ Cancer_Rate h = Some m /\
    forall r v, In r stats -> Cancer_Rate r = Some v -> v <= m.
Proof.
  destruct C8_extremes_are_first_among_ties as [Hspec _].
  eexists. eexists.
  refine (let H := Hspec tied_table
                     [Some "C"; Some "B"; Some "A"; Some "B"] _
                     eq_refl eq_refl in _).
  destruct H as [Hsorted [Hhigh _]].
  destruct (Hhigh _ eq_refl) as [_ [m [Hm Hall]]].
  exists m. split; [vm_compute; reflexivity|]. split; [exact Hsorted|].
  split; [reflexivity|]. split; [exact Hm|].
  intros r v Hr Hv. exact (proj1 (Hall r v Hr Hv)).
Defined.

(** C8, the counterexample.  With A:7, B:10, C:5 and D:5 the regions come
    out of the scripts in the order A, B, C, D of their labels, which is
    neither the descending ranking B, A, C, D of the specification nor
    its ascending ranking C, D, A, B; and the region that the scripts
    report as the lowest is C, the first of the two regions tied at 5 and
    not the last entry, D, of the descending ranking. *)
Lemma C8_regions_are_not_ranked :
  exists stats l,
    regional_stats unranked_table = Ok stats /\
    map fst (summary_of stats) = ["A"; "B"; "C"; "D"] /\
    Forall2 (fun e v => snd e == v) (summary_of stats) [7; 10; 5; 5] /\
    map fst (RankRegions Descending (summary_of stats)) = ["B"; "A"; "C"; "D"] /\
    map fst (RankRegions Ascending (summary_of stats)) = ["C"; "D"; "A"; "B"] /\
    lowest_region stats = Ok l /\ Region l = KStr "C" /\
    fst (last (RankRegions Descending (summary_of stats)) ("", 0)) = "D".
Proof.
  eexists. eexists.
  split; [vm_compute; reflexivity|].
  split; [reflexivity|].
  split; [repeat constructor|].
  split; [reflexivity|]. split; [reflexivity|].
  split; [vm_compute; reflexivity|]. split; reflexivity.
Qed.

(** ** Pearson correlation *)

Lemma dot_comm (a b : list Q) : dot a b == dot b a.
Proof.
  revert b. induction a as [|x a IH]; intros [|y b]; cbn [dot]; try reflexivity.
  rewrite (IH b). ring.
Qed.

Lemma dot_self_nonneg (a : list Q) : 0 <= dot a a.
Proof.
  induction a as [|x a IH]; cbn [dot]; [apply Qle_refl|]. nra.
Qed.

Lemma dot_self_zero (a : list Q) :
  dot a a == 0 -> Forall (fun x => x == 0) a.
Proof.
  induction a as [|x a IH]; cbn [dot]; intros H; constructor.
  - pose proof (dot_self_nonneg a). nra.
  - apply IH. pose proof (dot_self_nonneg a). nra.
Qed.

Lemma dot_zero_l (a b : list Q) :
  Forall (fun x => x == 0) a -> dot a b == 0.
Proof.
  intros H. revert b. induction H as [|x a Hx Ha IH]; intros [|y b];
    cbn [dot]; try reflexivity.
  rewrite (IH b), Hx. ring.
Qed.

Lemma Qsquare_nonneg (q : Q) : 0 <= q * q.
Proof. nra. Qed.

Lemma Qsquare_scaled_nonneg (t d : Q) : 0 <= d -> 0 <= t * t * d.
Proof. intros H. pose proof (Qsquare_nonneg t). nra. Qed.

(** The inequality of Cauchy and Schwarz, first as the sign of a
    quadratic form. *)
Lemma dot_form_nonneg (a b : list Q) (s t : Q) :
  0 <= s * s * dot a a + 2 * s * t * dot a b + t * t * dot b b.
Proof.
  revert b. induction a as [|x a IH]; intros [|y b].
  - cbn [dot]. lra.
  - pose proof (Qsquare_scaled_nonneg t _ (dot_self_nonneg (y :: b))) as H.
    change (dot [] []) with 0. change (dot [] (y :: b)) with 0. lra.
  - pose proof (Qsquare_scaled_nonneg s _ (dot_self_nonneg (x :: a))) as H.
    change (dot [] []) with 0. change (dot (x :: a) []) with 0. lra.
  - cbn [dot]. pose proof (IH b) as Hrest.
    pose proof (Qsquare_nonneg (s * x + t * y)) as Hsq.
    assert (E : s * s * (x * x + dot a a) + 2 * s * t * (x * y + dot a b)
                + t * t * (y * y + dot b b)
                == (s * x + t * y) * (s * x + t * y)
                   + (s * s * dot a a + 2 * s * t * dot a b + t * t * dot b b))
      by ring.
    rewrite E. lra.
Qed.

Lemma cauchy_schwarz (a b : list Q) :
  dot a b * dot a b <= dot a a * dot b b.
Proof.
  pose proof (dot_self_nonneg a) as Ha.
  pose proof (dot_self_nonneg b) as Hb.
  destruct (Qlt_le_dec 0 (dot b b)) as [Hpos|Hzero].
  - pose proof (dot_form_nonneg a b (dot b b) (- dot a b)) as H.
    assert (E : dot b b * dot b b * dot a a + 2 * dot b b * - dot a b * dot a b
                + - dot a b * - dot a b * dot b b
                == dot b b * (dot a a * dot b b - dot a b * dot a b)) by ring.
    rewrite E in H. nra.
  - assert (Hbb : dot b b == 0) by lra.
    pose proof (dot_zero_l b a (dot_self_zero b Hbb)) as Hba.
    rewrite (dot_comm a b), Hba, Hbb. lra.
Qed.

Lemma Qlen_cons (x : Q) (l : list Q) : Qlen (x :: l) == Qlen l + 1.
Proof.
  unfold Qlen. cbn [List.length].
  rewrite Nat2Z.inj_succ. unfold Z.succ. rewrite inject_Z_plus. reflexivity.
Qed.

Lemma pairwise_fst (a b : list float64) (x : Q) :
  In x (map fst (pairwise a b)) -> In (Some x) a.
Proof.
  revert b. induction a as [|[v|] a IH]; intros [|[w|] b];
    cbn [pairwise map fst In]; try tauto.
  - intros [->|H]; [now left | right; exact (IH b H)].
  - intros H. right. exact (IH b H).
  - intros H. right. exact (IH b H).
  - intros H. right. exact (IH b H).
Qed.

Lemma pairwise_swap (a b : list float64) :
  pairwise b a = map (fun p => (snd p, fst p)) (pairwise a b).
Proof.
  revert b. induction a as [|[v|] a IH]; intros [|[w|] b]; cbn;
    try reflexivity; now rewrite IH.
Qed.

Lemma pairwise_snd (a b : list float64) (y : Q) :
  In y (map snd (pairwise a b)) -> In (Some y) b.
Proof.
  intros H. apply (pairwise_fst b a). rewrite pairwise_swap, map_map.
  cbn [fst]. exact H.
Qed.


Lemma dropna_In (a : list float64) (x : Q) : In x (dropna a) <-> In (Some x) a.
Proof.
  induction a as [|[v|] a IH]; cbn [dropna In].
  - tauto.
  - rewrite IH. split; intros [H|H]; auto; [left; congruence | left; now inversion H].
  - rewrite IH. split; [auto | intros [H|H]; [discriminate | auto]].
Qed.

Lemma pearson_coefficient (obs : list (Q * Q)) :
  obs <> [] ->
  pearson obs
  = coefficient (deviations (map fst obs)) (deviations (map snd obs)).
Proof.
  destruct obs as [|o obs]; [contradiction | reflexivity].
Qed.

Lemma coefficient_bounds (dx dy : list Q) (r : R) :
  coefficient dx dy = Some r -> (-1 <= r <= 1)%R.
Proof.
  unfold coefficient.
  destruct (Qeq_bool (dot dx dx * dot dy dy) 0) eqn:E; [discriminate|].
  intros H. inversion H; subst r. clear H.
  apply Qeq_bool_neq in E.
  pose proof (dot_self_nonneg dx) as Hx.
  pose proof (dot_self_nonneg dy) as Hy.
  assert (Hpos : 0 < dot dx dx * dot dy dy).
  { assert (0 <= dot dx dx * dot dy dy) by (apply Qmult_le_0_compat; assumption).
    destruct (Qlt_le_dec 0 (dot dx dx * dot dy dy)) as [Hlt|Hle]; [exact Hlt|].
    exfalso. apply E. lra. }
  pose proof (cauchy_schwarz dx dy) as Hcs.
  apply Qlt_Rlt in Hpos. apply Qle_Rle in Hcs.
  rewrite Q2R_mult in Hcs. rewrite RMicromega.Q2R_0 in Hpos.
  set (C := Q2R (dot dx dy)) in *.
  set (S := Q2R (dot dx dx * dot dy dy)) in *.
  assert (Hq : (0 < sqrt S)%R) by now apply sqrt_lt_R0.
  assert (Hqq : (sqrt S * sqrt S = S)%R) by (apply sqrt_sqrt; lra).
  set (q := sqrt S) in *.
  assert (Hi : (0 < / q)%R) by now apply Rinv_0_lt_compat.
  assert (Hiq : (/ q * q = 1)%R) by (apply Rinv_l; lra).
  assert (HC : (- q <= C <= q)%R) by (split; nra).
  unfold Rdiv. split; nra.
Qed.

Lemma corr_values_bounds (a b : list float64) (r : R) :
  corr_values a b = Some r -> (-1 <= r <= 1)%R.
Proof.
  unfold corr_values. destruct (pairwise a b) as [|o obs] eqn:E; [discriminate|].
  rewrite pearson_coefficient by discriminate. apply coefficient_bounds.
Qed.

(** ** Welford's recurrences *)

(** The weight [1. / nobs] of a new value in the running mean. *)
Lemma weight_bounds (n : nat) :
  0 < 1 / inject_Z (Z.of_nat (S n)) /\
  1 / inject_Z (Z.of_nat (S n)) <= 1 /\
  (n = 0%nat -> 1 / inject_Z (Z.of_nat (S n)) == 1) /\
  (n <> 0%nat -> 1 / inject_Z (Z.of_nat (S n)) < 1).
Proof.
  assert (Hk : 1 <= inject_Z (Z.of_nat (S n))).
  { change 1 with (inject_Z 1). rewrite <- Zle_Qle. lia. }
  assert (Hk2 : n <> 0%nat -> 2 <= inject_Z (Z.of_nat (S n))).
  { intros Hn. change 2 with (inject_Z 2). rewrite <- Zle_Qle. lia. }
  assert (Hc : 1 / inject_Z (Z.of_nat (S n)) * inject_Z (Z.of_nat (S n)) == 1)
    by (field; lra).
  set (k := inject_Z (Z.of_nat (S n))) in *.
  set (c := 1 / k) in *.
  assert (Hpos : 0 < c) by nra.
  split; [exact Hpos|]. split; [nra|]. split.
  - intros ->. reflexivity.
  - intros Hn. specialize (Hk2 Hn). nra.
Qed.

(** One more value keeps the invariant of the running mean and of the
    running sum of squared deviations. *)
Lemma running_step (seen : Q -> Prop) (n : nat) (mean ssqdm v : Q) :
  running_invariant seen n mean ssqdm ->
  running_invariant (fun w => seen w \/ w = v) (S n)
    (mean + 1 / inject_Z (Z.of_nat (S n)) * (v - mean))
    (ssqdm + (v - (mean + 1 / inject_Z (Z.of_nat (S n)) * (v - mean))) * (v - mean)).
Proof.
  intros [Hempty [Hsome Hcases]].
  destruct (weight_bounds n) as (Hc0 & Hc1 & Hcz & Hcn).
  set (c := 1 / inject_Z (Z.of_nat (S n))) in *.
  assert (Einc : (v - (mean + c * (v - mean))) * (v - mean)
                 == (1 - c) * ((v - mean) * (v - mean))) by ring.
  pose proof (Qsquare_nonneg (v - mean)) as Hsq.
  assert (Hinc : 0 <= (1 - c) * ((v - mean) * (v - mean)))
    by (apply Qmult_le_0_compat; [lra | exact Hsq]).
  split; [discriminate|]. split; [intros _; exists v; now right|].
  destruct Hcases as [[Hz Hall]|[Hpos Hdiff]].
  - destruct (Nat.eq_dec n 0) as [Hn|Hn].
    + left. specialize (Hcz Hn). split.
      * rewrite Einc, Hz, Hcz. ring.
      * intros w [Hw| ->]; [exfalso; exact (Hempty Hn w Hw)|].
        rewrite Hcz. ring.
    + destruct (Qeq_dec v mean) as [E|E].
      * left. split.
        -- rewrite Einc, Hz, E. ring.
        -- intros w [Hw| ->]; [rewrite (Hall w Hw)|]; rewrite E; ring.
      * right. specialize (Hcn Hn). split.
        -- rewrite Einc, Hz.
           assert (Hd : 0 < (v - mean) * (v - mean)).
           { destruct (Qlt_le_dec 0 ((v - mean) * (v - mean))) as [H|H];
               [exact H|]. exfalso. apply E. nra. }
           assert (0 < (1 - c) * ((v - mean) * (v - mean)))
             by (apply Qmult_lt_0_compat; [lra | exact Hd]).
           lra.
        -- destruct (Hsome Hn) as [u Hu]. exists u, v.
           split; [now left|]. split; [now right|].
           intros Huv. apply E. rewrite <- Huv. now apply Hall.
  - right. split; [rewrite Einc; lra|].
    destruct Hdiff as (u & w & Hu & Hw & Hne). exists u, w. auto.
Qed.

Lemma running_invariant_ext (seen seen' : Q -> Prop) (n : nat) (mean ssqdm : Q) :
  (forall w, seen w <-> seen' w) ->
  running_invariant seen n mean ssqdm -> running_invariant seen' n mean ssqdm.
Proof.
  intros Hext [Hempty [Hsome Hcases]]. split; [|split].
  - intros Hn w Hw. apply (Hempty Hn w). now apply Hext.
  - intros Hn. destruct (Hsome Hn) as [u Hu]. exists u. now apply Hext.
  - destruct Hcases as [[Hz Hall]|[Hpos (u & w & Hu & Hw & Hne)]].
    + left. split; [exact Hz|]. intros w Hw. apply Hall. now apply Hext.
    + right. split; [exact Hpos|]. exists u, w.
      split; [now apply Hext|]. split; [now apply Hext | exact Hne].
Qed.

(** The scan of the rows keeps the invariant on the side of the first
    column... *)
Lemma nancorr_rows_x (xs : list float64) :
  forall (ys : list float64) (m : moments) (seen : Q -> Prop),
    running_invariant seen (nobs m) (meanx m) (ssqdm_x m) ->
    running_invariant (fun w => seen w \/ In w (map fst (pairwise xs ys)))
      (nobs (nancorr_rows m xs ys)) (meanx (nancorr_rows m xs ys))
      (ssqdm_x (nancorr_rows m xs ys)).
Proof.
  induction xs as [|[vx|] xs IH]; intros [|[vy|] ys] m seen H;
    cbn [nancorr_rows pairwise map In];
    try (apply (running_invariant_ext seen); [intros w; tauto | exact H]);
    try (apply IH; exact H).
  apply (running_invariant_ext
           (fun w => (seen w \/ w = vx) \/ In w (map fst (pairwise xs ys)))).
  - intros w. cbn [fst]. split; [intros [[Hw|Hw]|Hw] | intros [Hw|[Hw|Hw]]]; auto.
  - apply IH. exact (running_step seen (nobs m) (meanx m) (ssqdm_x m) vx H).
Qed.

(** ... and on the side of the second. *)
Lemma nancorr_rows_y (xs : list float64) :
  forall (ys : list float64) (m : moments) (seen : Q -> Prop),
    running_invariant seen (nobs m) (meany m) (ssqdm_y m) ->
    running_invariant (fun w => seen w \/ In w (map snd (pairwise xs ys)))
      (nobs (nancorr_rows m xs ys)) (meany (nancorr_rows m xs ys))
      (ssqdm_y (nancorr_rows m xs ys)).
Proof.
  induction xs as [|[vx|] xs IH]; intros [|[vy|] ys] m seen H;
    cbn [nancorr_rows pairwise map In];
    try (apply (running_invariant_ext seen); [intros w; tauto | exact H]);
    try (apply IH; exact H).
  apply (running_invariant_ext
           (fun w => (seen w \/ w = vy) \/ In w (map snd (pairwise xs ys)))).
  - intros w. cbn [snd]. split; [intros [[Hw|Hw]|Hw] | intros [Hw|[Hw|Hw]]]; auto.
  - apply IH. exact (running_step seen (nobs m) (meany m) (ssqdm_y m) vy H).
Qed.

Lemma running_invariant_start : running_invariant (fun _ => False) 0 0 0.
Proof.
  split; [intros _ v []|]. split; [intros H; now contradiction H|].
  left. split; [reflexivity | intros v []].
Qed.

(** After the scan of two columns from scratch. *)
Lemma nancorr_rows_invariant (xs ys : list float64) :
  running_invariant (fun w => In w (map fst (pairwise xs ys)))
    (nobs (nancorr_rows no_moments xs ys)) (meanx (nancorr_rows no_moments xs ys))
    (ssqdm_x (nancorr_rows no_moments xs ys)) /\
  running_invariant (fun w => In w (map snd (pairwise xs ys)))
    (nobs (nancorr_rows no_moments xs ys)) (meany (nancorr_rows no_moments xs ys))
    (ssqdm_y (nancorr_rows no_moments xs ys)).
Proof.
  split.
  - apply (running_invariant_ext
             (fun w => False \/ In w (map fst (pairwise xs ys)))); [intros w; tauto|].
    apply nancorr_rows_x. exact running_invariant_start.
  - apply (running_invariant_ext
             (fun w => False \/ In w (map snd (pairwise xs ys)))); [intros w; tauto|].
    apply nancorr_rows_y. exact running_invariant_start.
Qed.


Lemma clip_bounds (val : R) : (-1 <= clip val <= 1)%R.
Proof.
  unfold clip. destruct (Rlt_dec 1 val); [lra|].
  destruct (Rlt_dec val (-1)); lra.
Qed.

Lemma nancorr_pair_bounds (a b : list float64) (r : R) :
  nancorr_pair a b = Some r -> (-1 <= r <= 1)%R.
Proof.
  unfold nancorr_pair. cbv zeta.
  destruct (nobs (nancorr_rows no_moments a b) <? 1)%nat; [discriminate|].
  destruct (Req_dec_T _ 0); [discriminate|].
  intros H. inversion H. apply clip_bounds.
Qed.

Lemma sqrt_Q2R_zero_l (x y : Q) : x == 0 -> sqrt (Q2R (x * y)) = 0%R.
Proof.
  intros H. rewrite Q2R_mult, (Qeq_eqR _ _ H), RMicromega.Q2R_0, Rmult_0_l.
  apply sqrt_0.
Qed.

Lemma sqrt_Q2R_zero_r (x y : Q) : y == 0 -> sqrt (Q2R (x * y)) = 0%R.
Proof.
  intros H. rewrite Q2R_mult, (Qeq_eqR _ _ H), RMicromega.Q2R_0, Rmult_0_r.
  apply sqrt_0.
Qed.

(** The coefficient of a constant column and of any column is NaN: the
    running sum of squared deviations of the constant column stays zero,
    and so does the divisor. *)
Lemma nancorr_pair_constant (a b : list float64) :
  constant_column a -> nancorr_pair a b = None /\ nancorr_pair b a = None.
Proof.
  intros Hc. split; unfold nancorr_pair; cbv zeta.
  - destruct (nobs (nancorr_rows no_moments a b) <? 1)%nat; [reflexivity|].
    destruct (Req_dec_T _ 0) as [E|E]; [reflexivity|].
    exfalso. apply E. apply sqrt_Q2R_zero_l.
    destruct (proj1 (nancorr_rows_invariant a b))
      as [_ [_ [[Hz _]|[_ (u & w & Hu & Hw & Hne)]]]]; [exact Hz|].
    exfalso. apply Hne. apply Hc; eapply pairwise_fst; eassumption.
  - destruct (nobs (nancorr_rows no_moments b a) <? 1)%nat; [reflexivity|].
    destruct (Req_dec_T _ 0) as [E|E]; [reflexivity|].
    exfalso. apply E. apply sqrt_Q2R_zero_r.
    destruct (proj2 (nancorr_rows_invariant b a))
      as [_ [_ [[Hz _]|[_ (u & w & Hu & Hw & Hne)]]]]; [exact Hz|].
    exfalso. apply Hne. apply Hc; eapply pairwise_snd; eassumption.
Qed.


(** ** Comparisons in binary64 *)

Lemma SFcompare_antisym (x y : spec_float) :
  SpecFloat.SFcompare y x = option_map CompOpp (SpecFloat.SFcompare x y).
Proof.
  destruct x as [sx|sx| |sx mx ex], y as [sy|sy| |sy my ey]; cbn;
    try reflexivity;
    try (destruct sx; reflexivity); try (destruct sy; reflexivity);
    try (destruct sx, sy; reflexivity).
  destruct sx, sy; cbn; try reflexivity;
    rewrite (Z.compare_antisym ex ey);
    destruct (ex ?= ey)%Z; cbn; try reflexivity;
    change (PosDef.Pos.compare_cont Eq my mx) with (Pos.compare my mx);
    change (PosDef.Pos.compare_cont Eq mx my) with (Pos.compare mx my);
    rewrite (Pos.compare_antisym mx my); destruct (Pos.compare mx my); reflexivity.
Qed.

(** Two floats that are not NaN compare: when the first is not below the
    second, the second is at most the first. *)
Lemma float_not_lt_le (x y : float) :
  PrimFloat.is_nan x = false -> PrimFloat.is_nan y = false ->
  PrimFloat.ltb x y = false -> PrimFloat.leb y x = true.
Proof.
  unfold PrimFloat.is_nan.
  rewrite !FloatAxioms.eqb_spec, FloatAxioms.ltb_spec, FloatAxioms.leb_spec.
  unfold SpecFloat.SFeqb, SpecFloat.SFltb, SpecFloat.SFleb.
  rewrite (SFcompare_antisym (Prim2SF x) (Prim2SF y)).
  intros Hx Hy.
  destruct (Prim2SF x) as [sx|sx| |sx mx ex], (Prim2SF y) as [sy|sy| |sy my ey];
    cbn in Hx, Hy; try discriminate;
    destruct (SpecFloat.SFcompare _ _) as [[| |]|] eqn:E; cbn; try reflexivity;
    try discriminate; cbn in E; discriminate.
Qed.

(** The clip of [nancorr] in binary64 leaves NaN or a float between -1
    and 1. *)
Lemma float_clip_in_unit (v : float) :
  PrimFloat.is_nan (if PrimFloat.ltb 1 v then 1%float
                    else if PrimFloat.ltb v (-1) then (-1)%float else v) = true \/
  (PrimFloat.leb (-1) (if PrimFloat.ltb 1 v then 1%float
                       else if PrimFloat.ltb v (-1) then (-1)%float else v)
   && PrimFloat.leb (if PrimFloat.ltb 1 v then 1%float
                     else if PrimFloat.ltb v (-1) then (-1)%float else v) 1)%bool = true.
Proof.
  destruct (PrimFloat.ltb 1 v) eqn:E1; [right; reflexivity|].
  destruct (PrimFloat.ltb v (-1)) eqn:E2; [right; reflexivity|].
  destruct (PrimFloat.is_nan v) eqn:En; [now left|]. right.
  rewrite (float_not_lt_le v (-1)%float En eq_refl E2).
  rewrite (float_not_lt_le 1%float v eq_refl En E1). reflexivity.
Qed.

Lemma nancorr_floats_bounds (xs ys : list float) :
  PrimFloat.is_nan (nancorr_floats xs ys) = true \/
  (PrimFloat.leb (-1) (nancorr_floats xs ys)
   && PrimFloat.leb (nancorr_floats xs ys) 1)%bool = true.
Proof.
  unfold nancorr_floats, nancorr_value_binary64. cbv zeta.
  destruct (nobs_b _ <? 1)%nat; [now left|].
  destruct (PrimFloat.eqb _ 0); [now left|].
  apply float_clip_in_unit.
Qed.

(** ** A constant column in binary64 *)

Lemma digits2_pos_shift (m : positive) :
  Z.pos (SpecFloat.digits2_pos (Pos.iter xO m 52)) = (Z.pos (SpecFloat.digits2_pos m) + 52)%Z.
Proof.
  cbn [Pos.iter]. cbn [SpecFloat.digits2_pos].
  rewrite !Pos2Z.inj_succ. lia.
Qed.

Lemma SF64mul_one (s : bool) (m : positive) (e : Z) :
  SpecFloat.valid_binary prec emax (S754_finite s m e) = true ->
  SF64mul (S754_finite false 4503599627370496 (-52)) (S754_finite s m e)
  = S754_finite s m e.
Proof.
  unfold SpecFloat.valid_binary, SpecFloat.bounded, SpecFloat.canonical_mantissa.
  intros H. apply andb_true_iff in H. destruct H as [Hc He].
  apply Z.eqb_eq in Hc.
  unfold SF64mul, SpecFloat.SFmul. cbn [xorb].
  change (4503599627370496 * m)%positive with (Pos.iter xO m 52).
  unfold SpecFloat.binary_round_aux, SpecFloat.shr_fexp.
  unfold SpecFloat.Zdigits2 at 1.
  rewrite digits2_pos_shift.
  replace (Z.pos (SpecFloat.digits2_pos m) + 52 + (-52 + e))%Z
    with (Z.pos (SpecFloat.digits2_pos m) + e)%Z by lia.
  rewrite Hc.
  replace (e - (-52 + e))%Z with 52%Z by lia.
  cbn [SpecFloat.shr SpecFloat.shr_record_of_loc].
  replace (SpecFloat.iter_pos SpecFloat.shr_1 52
             {| SpecFloat.shr_m := Z.pos (Pos.iter xO m 52);
                SpecFloat.shr_r := false; SpecFloat.shr_s := false |})
    with {| SpecFloat.shr_m := Z.pos m;
            SpecFloat.shr_r := false; SpecFloat.shr_s := false |}
    by reflexivity.
  cbn [SpecFloat.shr_m SpecFloat.loc_of_shr_record SpecFloat.round_nearest_even
       SpecFloat.Zdigits2].
  replace (-52 + e + 52)%Z with e by lia.
  rewrite Hc, Z.sub_diag. cbn [SpecFloat.shr SpecFloat.shr_m].
  now rewrite He.
Qed.

Lemma mul_one_finite (x : float) :
  finite_float x -> Prim2SF (PrimFloat.mul 1 x) = Prim2SF x.
Proof.
  intros (s & m & e & E). rewrite FloatAxioms.mul_spec, E.
  change (Prim2SF 1) with (S754_finite false 4503599627370496 (-52)).
  apply SF64mul_one. rewrite <- E. apply FloatAxioms.Prim2SF_valid.
Qed.

Lemma sub_zero_r (x y : float) :
  finite_float x -> zero_float y -> Prim2SF (PrimFloat.sub x y) = Prim2SF x.
Proof.
  intros (s & m & e & Ex) (sy & Ey).
  now rewrite FloatAxioms.sub_spec, Ex, Ey.
Qed.

Lemma sub_zero_zero (x y : float) :
  zero_float x -> zero_float y -> zero_float (PrimFloat.sub x y).
Proof.
  intros (sx & Ex) (sy & Ey). unfold zero_float.
  rewrite FloatAxioms.sub_spec, Ex, Ey. cbn.
  destruct sx, sy; eexists; reflexivity.
Qed.

Lemma sub_self (x y : float) :
  finite_float x -> Prim2SF y = Prim2SF x -> zero_float (PrimFloat.sub x y).
Proof.
  intros (s & m & e & Ex) Ey. unfold zero_float.
  rewrite FloatAxioms.sub_spec, Ey, Ex.
  unfold SF64sub, SpecFloat.SFsub. cbv zeta.
  rewrite Z.sub_diag. eexists. reflexivity.
Qed.

Lemma sub_same_number (v mean : float) :
  same_number v mean -> zero_float (PrimFloat.sub v mean).
Proof.
  intros [[Hv Hm]|[Hv Hm]]; [now apply sub_zero_zero | now apply sub_self].
Qed.

Lemma mul_zero_l (x y : float) :
  zero_float x -> zero_float y \/ finite_float y -> zero_float (PrimFloat.mul x y).
Proof.
  intros (sx & Ex) [(sy & Ey)|(sy & m & e & Ey)]; unfold zero_float;
    rewrite FloatAxioms.mul_spec, Ex, Ey; cbn; eexists; reflexivity.
Qed.

Lemma mul_zero_r (x y : float) :
  zero_float x \/ finite_float x -> zero_float y -> zero_float (PrimFloat.mul x y).
Proof.
  intros [(sx & Ex)|(sx & m & e & Ex)] (sy & Ey); unfold zero_float;
    rewrite FloatAxioms.mul_spec, Ex, Ey; cbn; eexists; reflexivity.
Qed.

Lemma add_zero_l (x y : float) :
  zero_float x -> finite_float y -> Prim2SF (PrimFloat.add x y) = Prim2SF y.
Proof.
  intros (sx & Ex) (sy & m & e & Ey).
  now rewrite FloatAxioms.add_spec, Ex, Ey.
Qed.

Lemma add_zero_r (x y : float) :
  finite_float x -> zero_float y -> Prim2SF (PrimFloat.add x y) = Prim2SF x.
Proof.
  intros (sx & m & e & Ex) (sy & Ey).
  now rewrite FloatAxioms.add_spec, Ex, Ey.
Qed.

Lemma add_zero_zero (x y : float) :
  zero_float x -> zero_float y -> zero_float (PrimFloat.add x y).
Proof.
  intros (sx & Ex) (sy & Ey). unfold zero_float.
  rewrite FloatAxioms.add_spec, Ex, Ey. cbn.
  destruct sx, sy; eexists; reflexivity.
Qed.

Lemma is_finite_class (x : float) :
  PrimFloat.is_finite x = true -> zero_float x \/ finite_float x.
Proof.
  unfold PrimFloat.is_finite, PrimFloat.is_nan, PrimFloat.is_infinity.
  rewrite !FloatAxioms.eqb_spec, FloatAxioms.abs_spec.
  change (Prim2SF infinity) with (S754_infinity false).
  unfold zero_float, finite_float.
  destruct (Prim2SF x) as [s|s| |s m e]; cbn; intros H.
  - left. now exists s.
  - destruct s; discriminate.
  - discriminate.
  - right. now exists s, m, e.
Qed.

Lemma weights_iter (rows : positive) :
  fst (Pos.iter weights_step (1%Z, true) rows) = (1 + Z.pos rows)%Z /\
  (snd (Pos.iter weights_step (1%Z, true) rows) = true ->
   forall k, (1 <= k <= Z.pos rows)%Z -> weight_is_finite k = true).
Proof.
  induction rows as [|rows [IHk IHok]] using Pos.peano_ind.
  - cbn. split; [reflexivity|]. intros H k Hk.
    replace k with 1%Z by lia. exact H.
  - rewrite Pos.iter_succ. unfold weights_step at 1. cbn [fst snd].
    rewrite IHk. split; [lia|].
    intros H k Hk. apply andb_true_iff in H. destruct H as [Hok Hlast].
    rewrite IHk in Hlast.
    destruct (Z.eq_dec k (1 + Z.pos rows)) as [->|Hne]; [exact Hlast|].
    apply IHok; [exact Hok | lia].
Qed.

Lemma weights_finite_spec (rows : positive) :
  weights_finite rows = true ->
  forall k, (1 <= k <= Z.pos rows)%Z -> weight_is_finite k = true.
Proof. unfold weights_finite. apply weights_iter. Qed.

Lemma weights_finite_max_rows : weights_finite max_rows = true.
Proof. vm_compute. reflexivity. Qed.

Lemma weight_class (n : nat) :
  (Z.of_nat n < Z.pos max_rows)%Z ->
  zero_float (PrimFloat.div 1 (binary64_of_Z (Z.of_nat (S n)))) \/
  finite_float (PrimFloat.div 1 (binary64_of_Z (Z.of_nat (S n)))).
Proof.
  intros Hn.
  assert (Hk : (1 <= Z.of_nat (S n) <= Z.pos max_rows)%Z) by lia.
  pose proof (weights_finite_spec max_rows weights_finite_max_rows _ Hk) as H.
  unfold weight_is_finite in H. unfold zero_float, finite_float.
  destruct (Prim2SF _) as [s|s| |s m e]; try discriminate.
  - left. now exists s.
  - right. now exists s, m, e.
Qed.

(** One side of the recurrences on a constant column: the running mean is
    the constant and the running sum of squared deviations is zero. *)
Lemma constant_side_step (v mean ssqdm weight : float) (n : nat) :
  zero_float v \/ finite_float v ->
  zero_float weight \/ finite_float weight ->
  (n = 0%nat -> weight = 1%float) ->
  zero_float ssqdm ->
  (n = 0%nat -> zero_float mean) ->
  (n <> 0%nat -> same_number v mean) ->
  same_number v (PrimFloat.add mean (PrimFloat.mul weight (PrimFloat.sub v mean))) /\
  zero_float
    (PrimFloat.add ssqdm
       (PrimFloat.mul
          (PrimFloat.sub v (PrimFloat.add mean (PrimFloat.mul weight (PrimFloat.sub v mean))))
          (PrimFloat.sub v mean))).
Proof.
  intros Hv Hw Hone Hssq Hstart Hlater.
  assert (Hmean : same_number v
            (PrimFloat.add mean (PrimFloat.mul weight (PrimFloat.sub v mean)))).
  { destruct (Nat.eq_dec n 0) as [Hn|Hn].
    - specialize (Hstart Hn). rewrite (Hone Hn).
      destruct Hv as [Hv|Hv].
      + left. split; [exact Hv|]. apply add_zero_zero; [exact Hstart|].
        apply mul_zero_r; [right; now exists false, 4503599627370496%positive, (-52)%Z|].
        now apply sub_zero_zero.
      + right. split; [exact Hv|].
        assert (Hd : Prim2SF (PrimFloat.sub v mean) = Prim2SF v)
          by now apply sub_zero_r.
        assert (Hdf : finite_float (PrimFloat.sub v mean)).
        { destruct Hv as (s & m & e & E). exists s, m, e. now rewrite Hd. }
        rewrite add_zero_l; [|exact Hstart|].
        * now rewrite mul_one_finite.
        * destruct Hdf as (s & m & e & E). exists s, m, e.
          now rewrite mul_one_finite by (now exists s, m, e).
    - specialize (Hlater Hn).
      assert (Hz : zero_float (PrimFloat.mul weight (PrimFloat.sub v mean)))
        by (apply mul_zero_r; [exact Hw | now apply sub_same_number]).
      destruct Hlater as [[Hv0 Hm0]|[Hvf Hmf]].
      + left. split; [exact Hv0 | now apply add_zero_zero].
      + right. split; [exact Hvf|].
        rewrite add_zero_r; [exact Hmf | | exact Hz].
        destruct Hvf as (s & m & e & E). exists s, m, e. now rewrite Hmf. }
  split; [exact Hmean|].
  apply add_zero_zero; [exact Hssq|].
  apply mul_zero_l; [now apply sub_same_number|].
  destruct (Nat.eq_dec n 0) as [Hn|Hn].
  - specialize (Hstart Hn). destruct Hv as [Hv|Hv].
    + left. now apply sub_zero_zero.
    + right. destruct Hv as (s & m & e & E). exists s, m, e.
      rewrite sub_zero_r; [exact E | now exists s, m, e | exact Hstart].
  - left. apply sub_same_number. now apply Hlater.
Qed.

Lemma zero_float_0 : zero_float 0%float.
Proof. now exists false. Qed.

Lemma weight_first : PrimFloat.div 1 (binary64_of_Z (Z.of_nat 1)) = 1%float.
Proof. reflexivity. Qed.

(** The scan of a column whose finite cells are all the float [v], on the
    side of the first column. *)
Lemma constant_rows_x (v : float) (xs : list float) :
  (forall x, In x xs -> PrimFloat.is_finite x = true -> x = v) ->
  forall (ys : list float) (m : moments_binary64),
    (Z.of_nat (nobs_b m) + Z.of_nat (List.length xs) <= Z.pos max_rows)%Z ->
    zero_float (ssqdm_x_b m) ->
    (nobs_b m = 0%nat -> zero_float (meanx_b m)) ->
    (nobs_b m <> 0%nat -> same_number v (meanx_b m)) ->
    zero_float (ssqdm_x_b (nancorr_rows_binary64 m xs ys)).
Proof.
  induction xs as [|vx xs IH]; intros Hconst ys m Hrows Hssq Hstart Hlater;
    [exact Hssq|].
  destruct ys as [|vy ys]; [exact Hssq|]. cbn [nancorr_rows_binary64].
  cbn [List.length] in Hrows.
  assert (Hrest : forall x, In x xs -> PrimFloat.is_finite x = true -> x = v)
    by (intros x Hx; apply Hconst; now right).
  destruct (PrimFloat.is_finite vx && PrimFloat.is_finite vy) eqn:Emask.
  - apply andb_true_iff in Emask. destruct Emask as [Hfx _].
    assert (Hvx : vx = v) by (apply Hconst; [now left | exact Hfx]). subst vx.
    destruct (constant_side_step v (meanx_b m) (ssqdm_x_b m)
                (PrimFloat.div 1 (binary64_of_Z (Z.of_nat (S (nobs_b m)))))
                (nobs_b m))
      as [Hmean Hsum].
    + now apply is_finite_class.
    + apply weight_class. lia.
    + intros ->. exact weight_first.
    + exact Hssq.
    + exact Hstart.
    + exact Hlater.
    + apply IH; [exact Hrest | | exact Hsum | | ].
      * cbn [nancorr_row_binary64 nobs_b]. lia.
      * cbn [nancorr_row_binary64 nobs_b]. discriminate.
      * intros _. exact Hmean.
  - apply IH; [exact Hrest | lia | exact Hssq | exact Hstart | exact Hlater].
Qed.

Lemma constant_rows_y (v : float) (ys : list float) :
  (forall y, In y ys -> PrimFloat.is_finite y = true -> y = v) ->
  forall (xs : list float) (m : moments_binary64),
    (Z.of_nat (nobs_b m) + Z.of_nat (List.length ys) <= Z.pos max_rows)%Z ->
    zero_float (ssqdm_y_b m) ->
    (nobs_b m = 0%nat -> zero_float (meany_b m)) ->
    (nobs_b m <> 0%nat -> same_number v (meany_b m)) ->
    zero_float (ssqdm_y_b (nancorr_rows_binary64 m xs ys)).
Proof.
  induction ys as [|vy ys IH]; intros Hconst xs m Hrows Hssq Hstart Hlater.
  - destruct xs; exact Hssq.
  - destruct xs as [|vx xs]; [exact Hssq|]. cbn [nancorr_rows_binary64].
    cbn [List.length] in Hrows.
    assert (Hrest : forall y, In y ys -> PrimFloat.is_finite y = true -> y = v)
      by (intros y Hy; apply Hconst; now right).
    destruct (PrimFloat.is_finite vx && PrimFloat.is_finite vy) eqn:Emask.
    + apply andb_true_iff in Emask. destruct Emask as [_ Hfy].
      assert (Hvy : vy = v) by (apply Hconst; [now left | exact Hfy]). subst vy.
      destruct (constant_side_step v (meany_b m) (ssqdm_y_b m)
                  (PrimFloat.div 1 (binary64_of_Z (Z.of_nat (S (nobs_b m)))))
                  (nobs_b m))
        as [Hmean Hsum].
      * now apply is_finite_class.
      * apply weight_class. lia.
      * intros ->. exact weight_first.
      * exact Hssq.
      * exact Hstart.
      * exact Hlater.
      * apply IH; [exact Hrest | | exact Hsum | | ].
        -- cbn [nancorr_row_binary64 nobs_b]. lia.
        -- cbn [nancorr_row_binary64 nobs_b]. discriminate.
        -- intros _. exact Hmean.
    + apply IH; [exact Hrest | lia | exact Hssq | exact Hstart | exact Hlater].
Qed.

Lemma is_nan_spec_nan (x : float) : Prim2SF x = S754_nan -> PrimFloat.is_nan x = true.
Proof.
  intros H. unfold PrimFloat.is_nan. now rewrite FloatAxioms.eqb_spec, H.
Qed.

(** A zero sum of squares on one side makes the value NaN. *)
Lemma nancorr_value_zero_divisor (m : moments_binary64) :
  zero_float (ssqdm_x_b m) \/ zero_float (ssqdm_y_b m) ->
  PrimFloat.is_nan (nancorr_value_binary64 m) = true.
Proof.
  intros Hz. unfold nancorr_value_binary64. cbv zeta.
  destruct (nobs_b m <? 1)%nat; [reflexivity|].
  assert (Hp : zero_float (PrimFloat.mul (ssqdm_x_b m) (ssqdm_y_b m)) \/
               Prim2SF (PrimFloat.mul (ssqdm_x_b m) (ssqdm_y_b m)) = S754_nan).
  { rewrite FloatAxioms.mul_spec. unfold zero_float.
    destruct Hz as [(s & E)|(s & E)]; rewrite FloatAxioms.mul_spec, E.
    - destruct (Prim2SF (ssqdm_y_b m)) as [sy|sy| |sy my ey]; cbn;
        try (left; eexists; reflexivity); now right.
    - destruct (Prim2SF (ssqdm_x_b m)) as [sx|sx| |sx mx ex]; cbn;
        try (left; eexists; reflexivity); now right. }
  destruct Hp as [(s & E)|E].
  - assert (Ed : PrimFloat.eqb (PrimFloat.sqrt (PrimFloat.mul (ssqdm_x_b m) (ssqdm_y_b m)))
                   0 = true).
    { rewrite FloatAxioms.eqb_spec, FloatAxioms.sqrt_spec, E. reflexivity. }
    now rewrite Ed.
  - assert (Ed : Prim2SF (PrimFloat.sqrt (PrimFloat.mul (ssqdm_x_b m) (ssqdm_y_b m)))
                 = S754_nan).
    { now rewrite FloatAxioms.sqrt_spec, E. }
    assert (Eq0 : PrimFloat.eqb (PrimFloat.sqrt (PrimFloat.mul (ssqdm_x_b m) (ssqdm_y_b m)))
                    0 = false).
    { now rewrite FloatAxioms.eqb_spec, Ed. }
    rewrite Eq0.
    assert (Ev : Prim2SF (PrimFloat.div (covxy_b m)
                   (PrimFloat.sqrt (PrimFloat.mul (ssqdm_x_b m) (ssqdm_y_b m))))
                 = S754_nan).
    { rewrite FloatAxioms.div_spec, Ed.
      now destruct (Prim2SF (covxy_b m)). }
    rewrite !FloatAxioms.ltb_spec, Ev.
    change (Prim2SF 1) with (S754_finite false 4503599627370496 (-52)).
    cbn. now apply is_nan_spec_nan.
Qed.

Lemma nancorr_floats_constant (v : float) (xs ys : list float) :
  (Z.of_nat (List.length xs) <= Z.pos max_rows)%Z ->
  (forall x, In x xs -> PrimFloat.is_finite x = true -> x = v) ->
  PrimFloat.is_nan (nancorr_floats xs ys) = true /\
  PrimFloat.is_nan (nancorr_floats ys xs) = true.
Proof.
  intros Hrows Hconst. unfold nancorr_floats. split.
  - apply nancorr_value_zero_divisor. left.
    apply (constant_rows_x v xs Hconst); cbn [no_moments_binary64 nobs_b ssqdm_x_b meanx_b].
    + lia.
    + exact zero_float_0.
    + intros _. exact zero_float_0.
    + intros H. now contradiction H.
  - apply nancorr_value_zero_divisor. right.
    apply (constant_rows_y v xs Hconst); cbn [no_moments_binary64 nobs_b ssqdm_y_b meany_b].
    + lia.
    + exact zero_float_0.
    + intros _. exact zero_float_0.
    + intros H. now contradiction H.
Qed.

(** ** The correlation matrix *)

Lemma mapM_nth_error (A B : Type) (f : A -> result B) (l : list A) :
  forall bs i,
    mapM f l = Ok bs ->
    nth_error bs i
    = match nth_error l i with
      | Some a => match f a with Ok b => Some b | Raise _ => None end
      | None => None
      end.
Proof.
  induction l as [|a l IH]; intros bs i H; cbn [mapM] in H.
  - inversion H. now destruct i.
  - destruct (f a) as [b|] eqn:Ea; [|discriminate]. cbn [bind] in H.
    destruct (mapM f l) as [bs'|] eqn:El; [|discriminate]. cbn [bind] in H.
    inversion H; subst bs. destruct i as [|i]; cbn [nth_error].
    + now rewrite Ea.
    + now apply IH.
Qed.

Lemma mapM_total (A B : Type) (f : A -> result B) (l : list A) :
  (forall a, In a l -> exists b, f a = Ok b) -> exists bs, mapM f l = Ok bs.
Proof.
  induction l as [|a l IH]; intros H; cbn [mapM].
  - now exists [].
  - destruct (H a (or_introl eq_refl)) as [b ->].
    destruct IH as [bs ->]; [intros x Hx; apply H; now right|].
    now exists (b :: bs).
Qed.

Lemma mapM_Forall2 (A B : Type) (f : A -> result B) (l : list A) :
  forall bs, mapM f l = Ok bs -> Forall2 (fun a b => f a = Ok b) l bs.
Proof.
  induction l as [|a l IH]; intros bs H; cbn [mapM] in H.
  - inversion H. constructor.
  - destruct (f a) as [b|] eqn:Ea; [|discriminate]. cbn [bind] in H.
    destruct (mapM f l) as [bs'|] eqn:El; [|discriminate]. cbn [bind] in H.
    inversion H; subst bs. constructor; [exact Ea | now apply IH].
Qed.

Lemma mapM_length (A B : Type) (f : A -> result B) (l : list A) (bs : list B) :
  mapM f l = Ok bs -> List.length bs = List.length l.
Proof.
  intros H. symmetry. exact (Forall2_length (mapM_Forall2 _ _ f l bs H)).
Qed.

Lemma select_dtypes_numeric (df : DataFrame) (c : string * Series) :
  In c (select_dtypes df) -> is_numeric (snd c) = true.
Proof.
  unfold select_dtypes. intros H. apply filter_In in H. tauto.
Qed.

Lemma nth_error_seq_from (s n i : nat) :
  nth_error (seq s n) i = if (i <? n)%nat then Some (s + i)%nat else None.
Proof.
  revert s i. induction n as [|n IH]; intros s i; cbn [seq].
  - now destruct i.
  - destruct i as [|i]; cbn [nth_error].
    + now rewrite Nat.add_0_r.
    + rewrite IH. change (S i <? S n)%nat with (i <? n)%nat.
      now rewrite Nat.add_succ_comm.
Qed.

Lemma nth_error_combine (A B : Type) (l : list A) (l' : list B) (i : nat) :
  nth_error (combine l l') i
  = match nth_error l i, nth_error l' i with
    | Some a, Some b => Some (a, b)
    | _, _ => None
    end.
Proof.
  revert l' i. induction l as [|a l IH]; intros [|b l'] [|i];
    cbn [combine nth_error]; try reflexivity.
  - now destruct (nth_error l i).
  - apply IH.
Qed.

Lemma map_fst_combine_same (A B : Type) (l : list A) (l' : list B) :
  List.length l = List.length l' -> map fst (combine l l') = l.
Proof.
  revert l'. induction l as [|a l IH]; intros [|b l'] H; cbn in *;
    try reflexivity; try discriminate.
  f_equal. apply IH. now inversion H.
Qed.

Lemma nancorr_length (mat : list (list float64)) :
  List.length (nancorr mat) = List.length mat /\
  Forall (fun row => List.length row = List.length mat) (nancorr mat).
Proof.
  unfold nancorr. cbv zeta. split.
  - now rewrite length_map, length_seq.
  - apply Forall_forall. intros row Hrow. apply in_map_iff in Hrow.
    destruct Hrow as [i [<- _]]. now rewrite length_map, length_seq.
Qed.

(** The entry of the matrix at a pair of positions is the coefficient
    computed for the larger and the smaller of the two. *)
Lemma matrix_at_corr (df : DataFrame) (m : list (string * list (string * option R))) :
  DataFrame_corr df = Ok m ->
  exists mat,
    mapM (fun c => to_numeric (snd c)) df = Ok mat /\
    forall i j,
      matrix_at m i j
      = if ((i <? List.length df) && (j <? List.length df))%nat
        then Some (nancorr_pair (nth (Nat.max i j) mat []) (nth (Nat.min i j) mat []))
        else None.
Proof.
  unfold DataFrame_corr. intros H.
  destruct (mapM (fun c => to_numeric (snd c)) df) as [mat|] eqn:Em; [|discriminate].
  cbn [bind] in H. inversion H as [Hm]. clear H. exists mat. split; [reflexivity|].
  pose proof (mapM_length _ _ _ _ _ Em) as Hlen.
  intros i j. unfold matrix_at, nancorr, columns. cbv zeta.
  rewrite nth_error_combine, !nth_error_map, nth_error_seq_from, Hlen.
  destruct (nth_error df i) as [a|] eqn:Ei.
  - assert (Hi : (i < List.length df)%nat) by (apply nth_error_Some; congruence).
    rewrite (proj2 (Nat.ltb_lt _ _) Hi). cbn [option_map andb Nat.add].
    rewrite nth_error_combine, !nth_error_map, nth_error_seq_from.
    destruct (nth_error df j) as [b|] eqn:Ej.
    + assert (Hj : (j < List.length df)%nat) by (apply nth_error_Some; congruence).
      rewrite (proj2 (Nat.ltb_lt _ _) Hj). cbn [option_map snd Nat.add].
      destruct (j <=? i)%nat eqn:Eji.
      * apply Nat.leb_le in Eji.
        now rewrite (Nat.max_l i j Eji), (Nat.min_r i j Eji).
      * apply Nat.leb_gt in Eji.
        now rewrite (Nat.max_r i j (Nat.lt_le_incl _ _ Eji)),
                    (Nat.min_l i j (Nat.lt_le_incl _ _ Eji)).
    + apply nth_error_None in Ej.
      rewrite (proj2 (Nat.ltb_ge _ _) Ej). reflexivity.
  - apply nth_error_None in Ei.
    rewrite (proj2 (Nat.ltb_ge _ _) Ei). reflexivity.
Qed.

(** The array of a numeric column of the table is its values. *)
Lemma mapM_to_numeric_nth (df : DataFrame) (mat : list (list float64))
    (i : nat) (c : string) (s : Series) :
  mapM (fun c => to_numeric (snd c)) df = Ok mat ->
  nth_error df i = Some (c, s) ->
  nth i mat [] = floats s.
Proof.
  intros Hm Hi. pose proof (mapM_nth_error _ _ _ _ _ i Hm) as Hn.
  rewrite Hi in Hn. cbn [snd] in Hn.
  pose proof (mapM_Forall2 _ _ _ _ _ Hm) as Hall.
  assert (Hok : exists v, to_numeric s = Ok v).
  { clear Hn Hm. revert i Hi. induction Hall as [|a b l bs Hab Hrest IH]; intros i Hi.
    - now destruct i.
    - destruct i as [|i]; cbn [nth_error] in Hi.
      + inversion Hi; subst a. now exists b.
      + exact (IH i Hi). }
  destruct Hok as [v Hv]. rewrite Hv in Hn.
  unfold floats. rewrite Hv. now apply nth_error_nth.
Qed.

(** The matrix of the numeric columns of a table is always there. *)
Lemma DataFrame_corr_total (df : DataFrame) :
  exists m, DataFrame_corr (select_dtypes df) = Ok m.
Proof.
  unfold DataFrame_corr.
  destruct (mapM_total _ _ (fun c : string * Series => to_numeric (snd c))
              (select_dtypes df)) as [mat Hmat].
  - intros a Ha. apply to_numeric_numeric.
    exact (select_dtypes_numeric df a Ha).
  - rewrite Hmat. cbn [bind]. eexists. reflexivity.
Qed.




(** C5.  Every entry of the correlation matrix that is defined lies
    between -1 and 1, and every entry in the row or in the column of a
    constant numeric column is undefined (NaN); so it is for the
    coefficient of any two columns as the matrix computes it.  So it is
    in binary64: on any two columns of floats the recurrences of the
    matrix give NaN or a float between -1 and 1, and on a column of at
    most 100000 rows whose finite cells are all the same float, with any
    other column, they give NaN: the running mean is that float after one
    row, every later deviation from it is zero, and so is the running sum
    of their squares.  The constant column 0.1, 0.1, 0.1 is an instance,
    although the sum of its cells over their number is not 0.1 in
    binary64. *)
Theorem C5_corr_matrix_bounded_or_undefined :
  (forall a b r, nancorr_pair a b = Some r -> (-1 <= r <= 1)%R) /\
  (forall a b, constant_column a ->
               nancorr_pair a b = None /\ nancorr_pair b a = None) /\
  (forall df m,
      DataFrame_corr (select_dtypes df) = Ok m ->
      (forall i j r, matrix_at m i j = Some (Some r) -> (-1 <= r <= 1)%R) /\
      (forall i j c s,
          nth_error (select_dtypes df) i = Some (c, s) ->
          constant_column (floats s) ->
          (j < List.length (select_dtypes df))%nat ->
          matrix_at m i j = Some None /\ matrix_at m j i = Some None)) /\
  (forall xs ys : list float,
      PrimFloat.is_nan (nancorr_floats xs ys) = true \/
      (PrimFloat.leb (-1) (nancorr_floats xs ys)
       && PrimFloat.leb (nancorr_floats xs ys) 1)%bool = true) /\
  (forall (v : float) (xs ys : list float),
      (Z.of_nat (List.length xs) <= 100000)%Z ->
      (forall x, In x xs -> PrimFloat.is_finite x = true -> x = v) ->
      PrimFloat.is_nan (nancorr_floats xs ys) = true /\
      PrimFloat.is_nan (nancorr_floats ys xs) = true) /\
  PrimFloat.is_nan (nancorr_pair_binary64 [Some 0.1; Some 0.1; Some 0.1]
                                          [Some 1; Some 2; Some 4]) = true /\
  PrimFloat.is_nan (nancorr_pair_binary64 [Some 1; Some 2; Some 4]
                                          [Some 0.1; Some 0.1; Some 0.1]) = true.
Proof.
  split; [exact nancorr_pair_bounds|]. split; [exact nancorr_pair_constant|].
  split; [|split; [exact nancorr_floats_bounds|];
           split; [exact nancorr_floats_constant | split; vm_compute; reflexivity]].
  intros df m Hm. destruct (matrix_at_corr _ _ Hm) as [mat [Hmat Hat]]. split.
  - intros i j r. rewrite Hat.
    destruct ((i <? _) && (j <? _))%nat; [|discriminate].
    intros H. inversion H as [Hr]. exact (nancorr_pair_bounds _ _ _ Hr).
  - intros i j c s Hi Hconst Hj.
    assert (Hlt : (i < List.length (select_dtypes df))%nat)
      by (apply nth_error_Some; congruence).
    assert (Hcol : nth i mat [] = floats s)
      by exact (mapM_to_numeric_nth _ _ _ _ _ Hmat Hi).
    rewrite !Hat, (proj2 (Nat.ltb_lt _ _) Hlt), (proj2 (Nat.ltb_lt _ _) Hj).
    cbn [andb]. rewrite (Nat.max_comm j i), (Nat.min_comm j i).
    assert (Hnone : nancorr_pair (nth (Nat.max i j) mat []) (nth (Nat.min i j) mat [])
                    = None).
    { destruct (Nat.le_ge_cases i j) as [Hij|Hij].
      - rewrite (Nat.max_r i j Hij), (Nat.min_l i j Hij), Hcol.
        exact (proj2 (nancorr_pair_constant _ (nth j mat []) Hconst)).
      - rewrite (Nat.max_l i j Hij), (Nat.min_r i j Hij), Hcol.
        exact (proj1 (nancorr_pair_constant _ (nth j mat []) Hconst)). }
    now rewrite Hnone.
Qed.

(** In the matrix of [flat_table], whose education level is constant, the
    entries of the education level are undefined. *)
Lemma C5_witness_flat_table :
  exists m,
    DataFrame_corr (select_dtypes flat_table) = Ok m /\
    matrix_at m 2 0 = Some None /\ matrix_at m 0 2 = Some None /\
    matrix_at m 2 2 = Some None.
Proof.
  destruct (DataFrame_corr_total flat_table) as [m Hm].
  exists m. split; [exact Hm|].
  destruct C5_corr_matrix_bounded_or_undefined as [_ [_ [Hmatrix _]]].
  destruct (Hmatrix flat_table m Hm) as [_ Hconst].
  assert (Hflat : constant_column (floats (Float64 [Some 12; Some 12; Some 12]))).
  { intros x y Hx Hy. cbn in Hx, Hy.
    destruct Hx as [Hx|[Hx|[Hx|[]]]]; destruct Hy as [Hy|[Hy|[Hy|[]]]];
      inversion Hx; inversion Hy; reflexivity. }
  split; [|split].
  - exact (proj1 (Hconst 2%nat 0%nat "Education_Level" _ eq_refl Hflat
                    ltac:(cbn; lia))).
  - exact (proj2 (Hconst 2%nat 0%nat "Education_Level" _ eq_refl Hflat
                    ltac:(cbn; lia))).
  - exact (proj1 (Hconst 2%nat 2%nat "Education_Level" _ eq_refl Hflat
                    ltac:(cbn; lia))).
Defined.

(** * Further properties of the two scripts *)

(** ** Loading *)

Lemma substring_0_all (s : string) : substring 0 (String.length s) s = s.
Proof.
  induction s as [|c s IH]; cbn; [reflexivity | now rewrite IH].
Qed.

Lemma substring_append (p x : string) :
  substring (String.length p) (String.length x) (p ++ x)%string = x.
Proof.
  induction p as [|c p IH]; cbn [String.length String.append substring].
  - apply substring_0_all.
  - exact IH.
Qed.

Lemma substring_split (s : string) :
  forall n, (n <= String.length s)%nat ->
    s = (substring 0 n s ++ substring n (String.length s - n) s)%string.
Proof.
  induction s as [|c s IH]; intros n Hn.
  - cbn in Hn. assert (n = 0)%nat by lia. subst. reflexivity.
  - destruct n as [|n].
    + cbn [substring String.append]. rewrite Nat.sub_0_r.
      change (String.length (String c s)) with (S (String.length s)).
      cbn [substring]. now rewrite substring_0_all.
    + cbn [String.length] in Hn. cbn [substring String.append String.length Nat.sub].
      f_equal. apply IH. lia.
Qed.

Lemma append_length (p x : string) :
  String.length (p ++ x)%string = (String.length p + String.length x)%nat.
Proof.
  induction p as [|c p IH]; cbn; [reflexivity | now rewrite IH].
Qed.

(** [endswith] holds exactly of the strings made of a prefix and the
    suffix. *)
Lemma endswith_spec (s suffix : string) :
  endswith s suffix = true <-> exists prefix, s = (prefix ++ suffix)%string.
Proof.
  unfold endswith. split.
  - intros H. apply andb_true_iff in H. destruct H as [Hle Heq].
    apply Nat.leb_le in Hle. apply String.eqb_eq in Heq.
    exists (substring 0 (String.length s - String.length suffix) s).
    pose proof (substring_split s (String.length s - String.length suffix)) as H.
    replace (String.length s - (String.length s - String.length suffix))%nat
      with (String.length suffix) in H by lia.
    rewrite Heq in H. apply H. lia.
  - intros [prefix ->]. rewrite append_length.
    apply andb_true_iff. split; [apply Nat.leb_le; lia|].
    replace (String.length prefix + String.length suffix - String.length suffix)%nat
      with (String.length prefix) by lia.
    rewrite substring_append. apply String.eqb_refl.
Qed.

Section LoadingFacts.

Context {RS : NumpyRandom} {IO : PandasIO}.

(** X1.  In the main application the loading part never ends on an
    exception, and a file that its parser rejects is replaced by the demo
    table with one error notice that carries the message of the
    exception. *)
Theorem main_app_loading_recovers :
  forall (u : option UploadedFile) (use_demo : bool) (ambient : rng),
    (forall e, load_table u use_demo ambient <> Uncaught e) /\
    (forall f e,
        u = Some f -> parse f = Raise e ->
        load_table u use_demo ambient
        = Continue (fst (load_demo_data ambient))
                   [st_error ("Error: " ++ exn_message e)]).
Proof.
  intros u use_demo ambient. split.
  - apply load_table_never_raises.
  - intros f e -> Hf. now apply load_table_falls_back.
Qed.

(** X2.  The parser is chosen by the name of the file alone: [read_csv]
    exactly for the names made of a prefix and the four characters .csv,
    [read_excel] for every other name, an upper-case .CSV included. *)
Theorem parser_chosen_by_suffix :
  forall f : UploadedFile,
    ((exists prefix, name f = (prefix ++ ".csv")%string) -> parse f = read_csv f) /\
    ((forall prefix, name f <> (prefix ++ ".csv")%string) -> parse f = read_excel f) /\
    (name f = "DATA.CSV" -> parse f = read_excel f).
Proof.
  intros f. unfold parse. split; [|split].
  - intros H. apply endswith_spec in H. now rewrite H.
  - intros H. destruct (endswith (name f) ".csv") eqn:E; [|reflexivity].
    apply endswith_spec in E. destruct E as [prefix E]. now apply H in E.
  - intros ->. reflexivity.
Qed.

(** X3.  What the loading part does, case by case: a file that parses is
    the table analysed whether the demo box is checked or not; without a
    file the demo table is used when the box is checked; the run ends
    without a table exactly when there is no file and the box is not
    checked. *)
Theorem load_table_cases :
  forall (u : option UploadedFile) (use_demo : bool) (ambient : rng),
    (forall f df,
        u = Some f -> parse f = Ok df ->
        load_table u use_demo ambient
        = Continue df [st_success "File uploaded successfully!"]) /\
    (u = None -> use_demo = true ->
     load_table u use_demo ambient
     = Continue (fst (load_demo_data ambient))
                [st_info "Using demo data. Upload your own file for custom analysis."]) /\
    ((exists shown, load_table u use_demo ambient = Ended shown)
     <-> u = None /\ use_demo = false) /\
    (forall f other, u = Some f ->
                     load_table u use_demo ambient = load_table u other ambient).
Proof.
  intros u use_demo ambient. split; [|split; [|split]].
  - intros f df -> Hf. unfold load_table. now rewrite Hf.
  - intros -> ->. reflexivity.
  - unfold load_table. split.
    + intros [shown H]. destruct u as [f|].
      * destruct (parse f); discriminate.
      * destruct use_demo; [discriminate | now split].
    + intros [-> ->]. eexists. reflexivity.
  - intros f other ->. reflexivity.
Qed.

End LoadingFacts.

Lemma main_app_loading_recovers_witness :
  @load_table skewed_draws rejecting_parser (Some broken_upload) true 0%nat
  = Continue (fst (@load_demo_data skewed_draws 0%nat))
             [st_error "Error: Excel file format cannot be determined"].
Proof.
  exact (proj2 (@main_app_loading_recovers skewed_draws rejecting_parser
                  (Some broken_upload) true 0%nat)
               broken_upload _ eq_refl eq_refl).
Defined.

Lemma parser_chosen_by_suffix_witness :
  @parse rejecting_parser {| name := "rates.csv"; content := [] |}
  = @read_csv rejecting_parser {| name := "rates.csv"; content := [] |}.
Proof.
  apply (proj1 (@parser_chosen_by_suffix rejecting_parser
                  {| name := "rates.csv"; content := [] |})).
  now exists "rates".
Defined.

Lemma load_table_cases_witness :
  @load_table skewed_draws accepting_parser (Some broken_upload) true 0%nat
  = Continue survey_table [st_success "File uploaded successfully!"].
Proof.
  exact (proj1 (@load_table_cases skewed_draws accepting_parser
                  (Some broken_upload) true 0%nat)
               broken_upload survey_table eq_refl eq_refl).
Defined.

(** ** The demo table *)

Lemma length_array_add (a b : list Q) :
  List.length (array_add a b) = Nat.min (List.length a) (List.length b).
Proof.
  revert b. induction a as [|x a IH]; intros [|y b]; cbn; try reflexivity.
  now rewrite IH.
Qed.

Lemma county_name_injective (i j : nat) : county_name i = county_name j -> i = j.
Proof.
  unfold county_name. intros H. cbn in H. inversion H as [Hs].
  assert (Hu : Some (Nat.to_uint i) = Some (Nat.to_uint j)).
  { rewrite <- !NilEmpty.usu. now rewrite Hs. }
  inversion Hu as [Hd].
  rewrite <- (Unsigned.of_to i), <- (Unsigned.of_to j). now rewrite Hd.
Qed.

Lemma counties_NoDup (n : nat) : NoDup (counties n).
Proof.
  unfold counties. apply NoDup_map_NoDup_ForallPairs; [|apply seq_NoDup].
  intros i j _ _. apply county_name_injective.
Qed.

Section DemoTableFacts.

Context {RS : NumpyRandom}.

Hypothesis normal_size :
  forall loc scale n g, List.length (fst (normal loc scale n g)) = n.
Hypothesis choice_size :
  forall options n g, List.length (fst (choice options n g)) = n.

(** The columns of the demo table, one by one. *)
Lemma demo_table_columns (ambient : rng) :
  exists regions income poverty education cancer lung breast,
    fst (load_demo_data ambient)
    = [ ("County", text_column (counties 100));
        ("Region", text_column regions);
        ("Median_Income", float_column income);
        ("Poverty_Rate", float_column poverty);
        ("Education_Level", float_column education);
        ("Cancer_Rate", float_column (maximum cancer 50));
        ("Lung_Cancer_Rate", float_column lung);
        ("Breast_Cancer_Rate", float_column breast) ] /\
    List.length regions = 100%nat /\ List.length income = 100%nat /\
    List.length poverty = 100%nat /\ List.length education = 100%nat /\
    List.length cancer = 100%nat /\ List.length lung = 100%nat /\
    List.length breast = 100%nat.
Proof.
  unfold load_demo_data.
  destruct (normal 45000 15000 100 (seed 42 ambient)) as [income g1] eqn:E1.
  destruct (normal 15 5 100 g1) as [poverty g2] eqn:E2.
  destruct (normal 25 10 100 g2) as [education g3] eqn:E3.
  destruct (normal 0 10 100 g3) as [n1 g4] eqn:E4.
  destruct (normal 0 5 100 g4) as [n2 g5] eqn:E5.
  destruct (normal 0 8 100 g5) as [n3 g6] eqn:E6.
  destruct (choice ["Northeast"; "Midwest"; "South"; "West"] 100 g6)
    as [regions g7] eqn:E7.
  pose proof (normal_size 45000 15000 100%nat (seed 42 ambient)) as L1.
  pose proof (normal_size 15 5 100%nat g1) as L2.
  pose proof (normal_size 25 10 100%nat g2) as L3.
  pose proof (normal_size 0 10 100%nat g3) as L4.
  pose proof (normal_size 0 5 100%nat g4) as L5.
  pose proof (normal_size 0 8 100%nat g5) as L6.
  pose proof (choice_size ["Northeast"; "Midwest"; "South"; "West"] 100%nat g6) as L7.
  rewrite E1 in L1. rewrite E2 in L2. rewrite E3 in L3. rewrite E4 in L4.
  rewrite E5 in L5. rewrite E6 in L6. rewrite E7 in L7. cbn [fst] in *.
  eexists regions, income, poverty, education, _, _, _.
  split; [reflexivity|].
  unfold scalar_sub, scalar_mul.
  rewrite !length_array_add, !length_map, L1, L2, L3, L4, L5, L6, L7.
  repeat split; reflexivity.
Qed.

(** X4.  When the draws have the size they are asked for, the demo table
    is rectangular: its eight columns have distinct names and 100 rows
    each, no cell is missing, and the county identifiers are pairwise
    distinct, from County_1 to County_100. *)
Theorem demo_table_rectangular :
  forall ambient : rng,
    NoDup (columns (fst (load_demo_data ambient))) /\
    Forall (fun c => n_rows (snd c) = 100%nat) (fst (load_demo_data ambient)) /\
    Forall (fun c => match snd c with
                     | Float64 v => ~ In None v
                     | Int64 _ => True
                     | Object v => ~ In None v
                     end) (fst (load_demo_data ambient)) /\
    exists ids,
      getitem (fst (load_demo_data ambient)) "County" = Ok (text_column ids) /\
      NoDup ids /\
      nth_error ids 0 = Some "County_1" /\
      nth_error ids 99 = Some "County_100".
Proof.
  intros ambient.
  destruct (demo_table_columns ambient)
    as (regions & income & poverty & education & cancer & lung & breast
        & -> & Lr & Li & Lp & Le & Lc & Ll & Lb).
  assert (Hsome : forall (A : Type) (l : list A), ~ In None (map Some l)).
  { intros A l H. apply in_map_iff in H. destruct H as [x [Hx _]]. discriminate. }
  split; [|split; [|split]].
  - cbn. repeat constructor; cbn; intuition discriminate.
  - unfold text_column, float_column, maximum.
    repeat constructor; cbn [snd n_rows]; rewrite ?length_map; try assumption;
      unfold counties; now rewrite length_map, length_seq.
  - unfold text_column, float_column.
    repeat constructor; cbn [snd]; apply Hsome.
  - exists (counties 100). split; [reflexivity|].
    split; [apply counties_NoDup|]. split; reflexivity.
Qed.

End DemoTableFacts.

Lemma skewed_normal_size (loc scale : Q) (n calls : nat) :
  List.length (fst (skewed_normal loc scale n calls)) = n.
Proof. unfold skewed_normal. cbn [fst]. now rewrite length_map, length_seq. Qed.

Lemma cycling_choice_size (options : list string) (n calls : nat) :
  List.length (fst (cycling_choice options n calls)) = n.
Proof. unfold cycling_choice. cbn [fst]. now rewrite length_map, length_seq. Qed.

Lemma demo_table_rectangular_witness :
  Forall (fun c => n_rows (snd c) = 100%nat) (fst (@load_demo_data skewed_draws 0%nat)).
Proof.
  exact (proj1 (proj2 (@demo_table_rectangular skewed_draws
                         skewed_normal_size cycling_choice_size 0%nat))).
Defined.

(** X5.  On the demo table, whatever is drawn, the explorer returns a
    result, and its default selection is the education level against the
    breast cancer rate (positions 2 and 5 of the numeric columns), not the
    median income against the cancer rate; the histogram is drawn by
    default for the median income. *)
Theorem demo_default_selections {RS : NumpyRandom} :
  forall ambient : rng,
    (exists r,
        relationship_explorer (fst (load_demo_data ambient)) = Ok r /\
        x_col r = Some "Education_Level" /\
        y_col r = Some "Breast_Cancer_Rate" /\
        x_col r <> Some "Median_Income" /\
        y_col r <> Some "Cancer_Rate") /\
    (exists s,
        distribution_analysis (fst (load_demo_data ambient))
        = Ok ("Median_Income", s)) /\
    columns (select_dtypes (fst (load_demo_data ambient)))
    = ["Median_Income"; "Poverty_Rate"; "Education_Level"; "Cancer_Rate";
       "Lung_Cancer_Rate"; "Breast_Cancer_Rate"].
Proof.
  intros ambient. unfold load_demo_data.
  repeat match goal with
         | |- context [let '(_, _) := ?d in _] => destruct d
         end.
  cbn [fst]. split; [|split].
  - eexists. split; [reflexivity|]. cbn [x_col y_col].
    repeat split; discriminate.
  - eexists. reflexivity.
  - reflexivity.
Qed.

(** ** Means *)

Lemma Qlen_pos (q : Q) (qs : list Q) : 0 < Qlen (q :: qs).
Proof.
  unfold Qlen, Qlt, inject_Z. cbn [Qnum Qden List.length]. lia.
Qed.

Lemma Qsum_lower (lo : Q) (l : list Q) :
  (forall x, In x l -> lo <= x) -> lo * Qlen l <= Qsum l.
Proof.
  induction l as [|x l IH]; intros H.
  - change (Qlen []) with 0. change (Qsum []) with 0. lra.
  - change (Qsum (x :: l)) with (x + Qsum l).
    assert (Hx : lo <= x) by (apply H; now left).
    assert (Hl : lo * Qlen l <= Qsum l)
      by (apply IH; intros y Hy; apply H; now right).
    rewrite Qlen_cons. lra.
Qed.

(** The mean of the present cells is at least any lower bound of theirs. *)
Lemma nanmean_lower (lo : Q) (cells : list float64) (m : Q) :
  (forall x, In (Some x) cells -> lo <= x) ->
  nanmean cells = Some m -> lo <= m.
Proof.
  intros H. unfold nanmean.
  destruct (dropna cells) as [|q qs] eqn:E; [discriminate|].
  intros Hm. inversion Hm; subst m. unfold Qmean.
  apply Qle_shift_div_l; [apply Qlen_pos|].
  apply Qsum_lower. intros x Hx. apply H. apply dropna_In. now rewrite E.
Qed.

Lemma nanmean_present (cells : list float64) (m : Q) :
  nanmean cells = Some m -> exists x, In (Some x) cells.
Proof.
  unfold nanmean. destruct (dropna cells) as [|q qs] eqn:E; [discriminate|].
  intros _. exists q. apply dropna_In. rewrite E. now left.
Qed.

Lemma nanmean_defined (cells : list float64) (x : Q) :
  In (Some x) cells -> exists m, nanmean cells = Some m.
Proof.
  intros H. apply dropna_In in H. unfold nanmean.
  destruct (dropna cells) as [|q qs]; [contradiction|]. eexists. reflexivity.
Qed.

Lemma nanmean_undefined (cells : list float64) :
  nanmean cells = None <-> forall x, ~ In (Some x) cells.
Proof.
  unfold nanmean. split.
  - destruct (dropna cells) as [|q qs] eqn:E; [|discriminate].
    intros _ x Hx. apply dropna_In in Hx. now rewrite E in Hx.
  - intros H. destruct (dropna cells) as [|q qs] eqn:E; [reflexivity|].
    exfalso. apply (H q). apply dropna_In. rewrite E. now left.
Qed.

Section GroupRowsFacts.

Variable K : Type.
Variable cmp : K -> K -> comparison.

(** The cells of a group are the cells of the rows that hold its key. *)
Lemma group_rows_In (A : Type) (k : K) (col : list (option K)) (values : list A) (x : A) :
  In x (group_rows cmp k col values) <->
  exists i c, nth_error col i = Some c /\ same_key cmp k c = true /\
              nth_error values i = Some x.
Proof.
  revert values. induction col as [|c col IH]; intros [|v values];
    cbn [group_rows].
  - split; [contradiction | intros (i & c & H & _); destruct i; discriminate].
  - split; [contradiction | intros (i & c & H & _); destruct i; discriminate].
  - split; [contradiction | intros (i & c' & _ & _ & H); destruct i; discriminate].
  - destruct (same_key cmp k c) eqn:E; cbn [In]; rewrite IH; split.
    + intros [<-|(i & c' & H1 & H2 & H3)].
      * exists 0%nat, c. auto.
      * exists (S i), c'. auto.
    + intros (i & c' & H1 & H2 & H3). destruct i as [|i]; cbn in H1, H3.
      * left. congruence.
      * right. exists i, c'. auto.
    + intros (i & c' & H1 & H2 & H3). exists (S i), c'. auto.
    + intros (i & c' & H1 & H2 & H3). destruct i as [|i]; cbn in H1, H3.
      * inversion H1; subst. congruence.
      * exists i, c'. auto.
Qed.

End GroupRowsFacts.

(** ** The regional tab *)

Lemma group_rows_incl (K A : Type) (cmp : K -> K -> comparison) (k : K)
    (col : list (option K)) (values : list A) (x : A) :
  In x (group_rows cmp k col values) -> In x values.
Proof.
  intros H. apply group_rows_In in H. destruct H as (i & c & _ & _ & H).
  eapply nth_error_In; eassumption.
Qed.

Lemma aggregate_In (K : Type) (cmp : K -> K -> comparison) (wrap : K -> key)
    (col : list (option K)) (income poverty cancer : list float64)
    (row : RegionStats) :
  In row (aggregate cmp wrap col income poverty cancer) ->
  exists k, In k (group_keys cmp col) /\
            Region row = wrap k /\
            Median_Income row = nanmean (group_rows cmp k col income) /\
            Poverty_Rate row = nanmean (group_rows cmp k col poverty) /\
            Cancer_Rate row = nanmean (group_rows cmp k col cancer).
Proof.
  unfold aggregate. intros H. apply in_map_iff in H.
  destruct H as [k [<- Hk]]. exists k. cbn. auto.
Qed.

Lemma first_best_none (better : Q -> Q -> bool) (l : list float64) :
  (forall c, In c l -> c = None) ->
  forall i, first_best better l i None = None.
Proof.
  induction l as [|c l IH]; intros H i; [reflexivity|].
  rewrite (H c (or_introl eq_refl)). cbn [first_best].
  apply IH. intros c' Hc'. apply H. now right.
Qed.

Lemma extreme_by_none (better : Q -> Q -> bool) (stats : list RegionStats) :
  (forall row, In row stats -> Cancer_Rate row = None) ->
  extreme_by better stats
  = Raise (ValueError "attempt to get argmax of an empty sequence").
Proof.
  intros H. unfold extreme_by. rewrite first_best_none; [reflexivity|].
  intros c Hc. apply in_map_iff in Hc. destruct Hc as [row [<- Hrow]].
  now apply H.
Qed.

Section ExtremeValues.

Variable better : Q -> Q -> bool.
Variable le : Q -> Q -> Prop.

Hypothesis better_true : forall v b, better v b = true -> ~ le v b.
Hypothesis better_false : forall v b, better v b = false -> le v b.
Hypothesis le_refl : forall a, le a a.
Hypothesis le_trans : forall a b c, le a b -> le b c -> le a c.
Hypothesis le_total : forall a b, le a b \/ le b a.

(** The reported row is a row of the statistics and no row beats its
    value, in whatever order the rows are. *)
Lemma extreme_by_value (stats : list RegionStats) (h : RegionStats) :
  extreme_by better stats = Ok h ->
  In h stats /\
  exists m, Cancer_Rate h = Some m /\
    forall r v, In r stats -> Cancer_Rate r = Some v -> le v m.
Proof.
  intros H. unfold extreme_by in H.
  destruct (first_best better (map Cancer_Rate stats) 0 None) as [[j m]|] eqn:E;
    [|discriminate].
  cbn [idx_of bind] in H. unfold loc in H.
  destruct (nth_error stats j) as [h'|] eqn:Ej; [|discriminate].
  inversion H; subst h'.
  destruct (first_best_first better le better_true better_false le_refl le_trans
              le_total _ _ _ E) as [Hj [Hall _]].
  rewrite nth_error_map, Ej in Hj. cbn in Hj. inversion Hj as [Hm].
  split; [eapply nth_error_In; eassumption|].
  exists m. split; [exact Hm|].
  intros r v Hr Hv. apply In_nth_error in Hr. destruct Hr as [k Hk].
  apply (Hall k v). rewrite nth_error_map, Hk. cbn. now rewrite Hv.
Qed.

End ExtremeValues.

Lemma highest_region_value (stats : list RegionStats) (h : RegionStats) :
  highest_region stats = Ok h ->
  In h stats /\
  exists m, Cancer_Rate h = Some m /\
    forall r v, In r stats -> Cancer_Rate r = Some v -> v <= m.
Proof.
  apply (extreme_by_value Qgtb Qle Qgtb_true Qgtb_false Qle_refl Qle_trans Qle_total).
Qed.

Lemma lowest_region_value (stats : list RegionStats) (h : RegionStats) :
  lowest_region stats = Ok h ->
  In h stats /\
  exists m, Cancer_Rate h = Some m /\
    forall r v, In r stats -> Cancer_Rate r = Some v -> m <= v.
Proof.
  apply (extreme_by_value Qltb (fun v m => m <= v)).
  - intros v b. apply Qgtb_true.
  - intros v b. apply Qgtb_false.
  - intros a. apply Qle_refl.
  - intros a b c Hab Hbc. exact (Qle_trans _ _ _ Hbc Hab).
  - intros a b. destruct (Qle_total a b); tauto.
Qed.

Lemma same_key_label_iff (l : string) (c : option string) :
  same_key string_compare l c = true <-> c = Some l.
Proof.
  rewrite same_key_label. destruct c as [l'|]; [|split; discriminate].
  rewrite String.eqb_eq. split; [now intros -> | now intros H; inversion H].
Qed.

(** X6.  On a table with a column of region labels and the three metric
    columns, the regional tab makes its report as soon as one row holds
    both a region label and a cancer rate; when no row does (a table
    without rows, or whose cancer rates are missing wherever a label is
    present) the tab raises a [ValueError] from [idxmax]. *)
Theorem regional_insights_needs_one_labelled_rate :
  forall df labels income poverty cancer,
    getitem df "Region" = Ok (Object labels) ->
    numeric_column df "Median_Income" = Ok income ->
    numeric_column df "Poverty_Rate" = Ok poverty ->
    numeric_column df "Cancer_Rate" = Ok cancer ->
    ((exists i lab v, nth_error labels i = Some (Some lab) /\
                      nth_error cancer i = Some (Some v)) ->
     exists stats h l, regional_insights df = Ok (Report stats h l)) /\
    ((forall i lab v, nth_error labels i = Some (Some lab) ->
                      nth_error cancer i <> Some (Some v)) ->
     regional_insights df
     = Raise (ValueError "attempt to get argmax of an empty sequence")).
Proof.
  intros df labels income poverty cancer Hr Hi Hp Hc.
  pose proof (regional_stats_labelled df labels income poverty cancer Hr Hi Hp Hc)
    as Hstats.
  unfold regional_insights.
  rewrite (getitem_has_column df "Region" _ Hr), Hstats. cbn [bind].
  set (stats := aggregate string_compare KStr labels income poverty cancer).
  split.
  - intros (i & lab & v & Hl & Hv).
    assert (Hrow : exists row, In row stats /\ exists m, Cancer_Rate row = Some m).
    { exists {| Region := KStr lab;
                Median_Income := nanmean (group_rows string_compare lab labels income);
                Poverty_Rate := nanmean (group_rows string_compare lab labels poverty);
                Cancer_Rate := nanmean (group_rows string_compare lab labels cancer) |}.
      split.
      - unfold stats, aggregate. apply in_map_iff. exists lab. split; [reflexivity|].
        apply (group_keys_In string string_compare string_compare_eq_iff).
        eapply nth_error_In; eassumption.
      - cbn [Cancer_Rate]. apply (nanmean_defined _ v).
        apply group_rows_In. exists i, (Some lab).
        split; [exact Hl|]. split; [now apply same_key_label_iff | exact Hv]. }
    destruct Hrow as (row & Hin & m & Hm).
    destruct (highest_region_found stats row m Hin Hm) as [h Hh].
    destruct (lowest_region_found stats row m Hin Hm) as [l Hlow].
    exists stats, h, l. now rewrite Hh, Hlow.
  - intros Hnone.
    assert (Hall : forall row, In row stats -> Cancer_Rate row = None).
    { intros row Hrow. apply aggregate_In in Hrow.
      destruct Hrow as (k & _ & _ & _ & _ & ->).
      apply nanmean_undefined. intros x Hx. apply group_rows_In in Hx.
      destruct Hx as (i & c & Hl & Hk & Hv).
      apply same_key_label_iff in Hk. subst c.
      exact (Hnone i k x Hl Hv). }
    change (highest_region stats) with (extreme_by Qgtb stats).
    now rewrite (extreme_by_none Qgtb stats Hall).
Qed.

Lemma regional_insights_needs_one_labelled_rate_witness :
  exists stats h l, regional_insights tied_table = Ok (Report stats h l).
Proof.
  apply (proj1 (regional_insights_needs_one_labelled_rate tied_table
                  [Some "C"; Some "B"; Some "A"; Some "B"]
                  [Some 1; Some 2; Some 3; Some 4]
                  [Some 1; Some 2; Some 3; Some 4]
                  [Some 5; Some 12; Some 10; Some 8]
                  eq_refl eq_refl eq_refl eq_refl)).
  exists 0%nat, "C", 5. split; reflexivity.
Defined.

Section DemoRegionalFacts.

Context {RS : NumpyRandom}.

Hypothesis normal_size :
  forall loc scale n g, List.length (fst (normal loc scale n g)) = n.
Hypothesis choice_size :
  forall options n g, List.length (fst (choice options n g)) = n.

(** X8.  When the draws have the size they are asked for, the regional
    tab makes its report on the demo table, with at least one region, and
    every regional mean of the cancer rate is defined and at least 50, the
    reported lowest one included. *)
Theorem demo_regional_report :
  forall ambient : rng,
    exists stats h l,
      regional_insights (fst (load_demo_data ambient)) = Ok (Report stats h l) /\
      stats <> [] /\
      (forall row, In row stats -> exists m, Cancer_Rate row = Some m /\ 50 <= m) /\
      (exists ml, Cancer_Rate l = Some ml /\ 50 <= ml).
Proof.
  intros ambient.
  destruct (demo_table_columns normal_size choice_size ambient)
    as (regions & income & poverty & education & cancer & lung & breast
        & Hdf & Lr & Li & Lp & Le & Lc & Ll & Lb).
  rewrite Hdf.
  set (df := [ ("County", text_column (counties 100));
               ("Region", text_column regions);
               ("Median_Income", float_column income);
               ("Poverty_Rate", float_column poverty);
               ("Education_Level", float_column education);
               ("Cancer_Rate", float_column (maximum cancer 50));
               ("Lung_Cancer_Rate", float_column lung);
               ("Breast_Cancer_Rate", float_column breast) ]).
  set (labels := map Some regions).
  set (rates := map Some (maximum cancer 50)).
  set (stats := aggregate string_compare KStr labels
                  (map Some income) (map Some poverty) rates).
  assert (Hstats : regional_stats df = Ok stats) by reflexivity.
  assert (Hrates : forall i, (i < 100)%nat ->
                             exists v, nth_error rates i = Some (Some v) /\ 50 <= v).
  { intros i Hi. unfold rates, maximum. rewrite !nth_error_map.
    destruct (nth_error cancer i) as [x|] eqn:E;
      [|apply nth_error_None in E; lia].
    exists (Qmax x 50). split; [reflexivity | apply Q.le_max_r]. }
  assert (Hfloor : forall x, In (Some x) rates -> 50 <= x).
  { intros x Hx. unfold rates, maximum in Hx. rewrite map_map in Hx.
    apply in_map_iff in Hx. destruct Hx as [y [E _]]. inversion E.
    apply Q.le_max_r. }
  assert (Hrows : forall row, In row stats ->
                              exists m, Cancer_Rate row = Some m /\ 50 <= m).
  { intros row Hrow. apply aggregate_In in Hrow.
    destruct Hrow as (k & Hk & _ & _ & _ & Hc).
    apply (group_keys_In string string_compare string_compare_eq_iff) in Hk.
    apply In_nth_error in Hk. destruct Hk as [i Hi].
    assert (Hlt : (i < 100)%nat).
    { assert (nth_error labels i <> None) by congruence.
      apply nth_error_Some in H. unfold labels in H.
      rewrite length_map in H. lia. }
    destruct (Hrates i Hlt) as [v [Hv _]].
    destruct (nanmean_defined (group_rows string_compare k labels rates) v)
      as [m Hm].
    { apply group_rows_In. exists i, (Some k).
      split; [exact Hi|]. split; [now apply same_key_label_iff | exact Hv]. }
    exists m. rewrite Hc. split; [exact Hm|].
    apply (nanmean_lower 50 (group_rows string_compare k labels rates) m); [|exact Hm].
    intros x Hx. apply group_rows_incl in Hx. now apply Hfloor. }
  assert (Hne : exists row, In row stats).
  { destruct regions as [|r0 regions']; [discriminate|].
    exists {| Region := KStr r0;
              Median_Income := nanmean (group_rows string_compare r0 labels (map Some income));
              Poverty_Rate := nanmean (group_rows string_compare r0 labels (map Some poverty));
              Cancer_Rate := nanmean (group_rows string_compare r0 labels rates) |}.
    unfold stats, aggregate. apply in_map_iff. exists r0. split; [reflexivity|].
    apply (group_keys_In string string_compare string_compare_eq_iff).
    unfold labels. cbn. now left. }
  destruct Hne as [row Hrow].
  destruct (Hrows row Hrow) as [m [Hm _]].
  destruct (highest_region_found stats row m Hrow Hm) as [h Hh].
  destruct (lowest_region_found stats row m Hrow Hm) as [l Hl].
  exists stats, h, l.
  split; [|split; [|split]].
  - unfold regional_insights.
    change (has_column "Region" df) with true. cbv iota.
    rewrite Hstats. cbn [bind]. now rewrite Hh, Hl.
  - intros E. rewrite E in Hrow. contradiction.
  - exact Hrows.
  - apply Hrows. exact (proj1 (lowest_region_value stats l Hl)).
Qed.

End DemoRegionalFacts.

Lemma demo_regional_report_witness :
  exists stats h l,
    regional_insights (fst (@load_demo_data skewed_draws 0%nat))
    = Ok (Report stats h l) /\ stats <> [].
Proof.
  destruct (@demo_regional_report skewed_draws skewed_normal_size
              cycling_choice_size 0%nat) as (stats & h & l & H & Hne & _).
  exists stats, h, l. now split.
Defined.

(** ** The groups as a partition of the rows *)

Section PartitionFacts.

Variable K : Type.
Variable cmp : K -> K -> comparison.

Hypothesis cmp_eq_iff : forall a b, cmp a b = Eq <-> a = b.
Hypothesis cmp_antisym : forall a b, cmp b a = CompOpp (cmp a b).
Hypothesis cmp_lt_trans : forall a b c, cmp a b = Lt -> cmp b c = Lt -> cmp a c = Lt.

Lemma insert_key_cases (k : K) (l : list K) :
  StronglySorted (fun a b => cmp a b = Lt) l ->
  (In k l /\ insert_key cmp k l = l) \/
  (~ In k l /\ exists l1 l2, l = l1 ++ l2 /\ insert_key cmp k l = l1 ++ k :: l2).
Proof.
  induction 1 as [|h t Hs IH Hall]; cbn [insert_key].
  - right. split; [tauto|]. now exists [], [].
  - destruct (cmp k h) eqn:E.
    + apply cmp_eq_iff in E. subst h. left. split; [now left | reflexivity].
    + right. split.
      * intros [->|Hin].
        -- rewrite (proj2 (cmp_eq_iff k k) eq_refl) in E. discriminate.
        -- rewrite Forall_forall in Hall. specialize (Hall k Hin).
           pose proof (cmp_lt_trans _ _ _ E Hall) as Hkk.
           rewrite (proj2 (cmp_eq_iff k k) eq_refl) in Hkk. discriminate.
      * now exists [], (h :: t).
    + destruct IH as [[Hin Hins]|[Hnotin (l1 & l2 & Ht & Hins)]].
      * left. split; [now right | now rewrite Hins].
      * right. split.
        -- intros [->|Hin]; [|contradiction].
           rewrite (proj2 (cmp_eq_iff k k) eq_refl) in E. discriminate.
        -- exists (h :: l1), l2. cbn [app].
           split; [now rewrite Ht | now rewrite Hins].
Qed.

Lemma group_rows_absent (A : Type) (k : K) (col : list (option K)) (values : list A) :
  ~ In (Some k) col -> group_rows cmp k col values = [].
Proof.
  intros Hk. destruct (group_rows cmp k col values) as [|x rest] eqn:E;
    [reflexivity|].
  exfalso. assert (Hx : In x (group_rows cmp k col values)) by (rewrite E; now left).
  apply group_rows_In in Hx. destruct Hx as (i & c & Hc & Hsame & _).
  destruct c as [k'|]; [|discriminate]. cbn in Hsame.
  destruct (cmp k k') eqn:Ek; try discriminate.
  apply cmp_eq_iff in Ek. subst k'. apply Hk.
  eapply nth_error_In; eassumption.
Qed.

Lemma group_rows_head_same (A : Type) (k : K) (col : list (option K))
    (v : A) (values : list A) :
  group_rows cmp k (Some k :: col) (v :: values) = v :: group_rows cmp k col values.
Proof.
  cbn [group_rows same_key]. now rewrite (proj2 (cmp_eq_iff k k) eq_refl).
Qed.

Lemma group_rows_head_other (A : Type) (k k' : K) (col : list (option K))
    (v : A) (values : list A) :
  k' <> k ->
  group_rows cmp k' (Some k :: col) (v :: values) = group_rows cmp k' col values.
Proof.
  intros Hne. cbn [group_rows same_key].
  destruct (cmp k' k) eqn:E; try reflexivity.
  apply cmp_eq_iff in E. contradiction.
Qed.

Lemma groups_head_other (A : Type) (k : K) (col : list (option K))
    (v : A) (values : list A) (l : list K) :
  ~ In k l ->
  map (fun k' => group_rows cmp k' (Some k :: col) (v :: values)) l
  = map (fun k' => group_rows cmp k' col values) l.
Proof.
  intros Hk. apply map_ext_in. intros k' Hk'.
  apply group_rows_head_other. intros ->. contradiction.
Qed.

(** The groups, one after the other, hold the cells of the rows with a key,
    each one once. *)
Lemma groups_partition (A : Type) (col : list (option K)) :
  forall values : list A,
    Permutation
      (List.concat (map (fun k => group_rows cmp k col values) (group_keys cmp col)))
      (labelled_cells col values).
Proof.
  induction col as [|c col IH]; intros values; [constructor|].
  destruct values as [|v values].
  - assert (E : forall l, List.concat (map (fun k => group_rows cmp k (c :: col) (@nil A)) l) = []).
    { induction l as [|k l IHl]; [reflexivity|]. cbn [map List.concat].
      rewrite IHl. reflexivity. }
    rewrite E. destruct c; constructor.
  - destruct c as [k|].
    + cbn [group_keys labelled_cells].
      pose proof (group_keys_sorted K cmp cmp_eq_iff cmp_antisym cmp_lt_trans col)
        as Hsorted.
      pose proof (sorted_NoDup K cmp cmp_eq_iff _ Hsorted) as Hnd.
      destruct (insert_key_cases k (group_keys cmp col) Hsorted)
        as [[Hin ->]|[Hnotin (l1 & l2 & Hkeys & ->)]].
      * apply in_split in Hin. destruct Hin as (l1 & l2 & Hkeys).
        rewrite Hkeys in Hnd. apply NoDup_remove_2 in Hnd.
        assert (H1 : ~ In k l1) by (intros H; apply Hnd, in_or_app; now left).
        assert (H2 : ~ In k l2) by (intros H; apply Hnd, in_or_app; now right).
        specialize (IH values). rewrite Hkeys in IH |- *.
        rewrite map_app, concat_app in IH |- *. cbn [map List.concat] in IH |- *.
        rewrite (groups_head_other A k col v values l1 H1),
                (groups_head_other A k col v values l2 H2),
                group_rows_head_same.
        cbn [app].
        eapply Permutation_trans; [apply Permutation_sym, Permutation_middle|].
        now apply perm_skip.
      * assert (H1 : ~ In k l1)
          by (intros H; apply Hnotin; rewrite Hkeys; apply in_or_app; now left).
        assert (H2 : ~ In k l2)
          by (intros H; apply Hnotin; rewrite Hkeys; apply in_or_app; now right).
        specialize (IH values). rewrite Hkeys in IH.
        rewrite map_app, concat_app in IH |- *. cbn [map List.concat].
        rewrite (groups_head_other A k col v values l1 H1),
                (groups_head_other A k col v values l2 H2),
                group_rows_head_same.
        rewrite (group_rows_absent A k col values).
        -- cbn [app].
           eapply Permutation_trans; [apply Permutation_sym, Permutation_middle|].
           now apply perm_skip.
        -- intros Hk. apply Hnotin.
           now apply (group_keys_In K cmp cmp_eq_iff).
    + cbn [group_keys labelled_cells].
      erewrite map_ext; [apply (IH values)|].
      intros k. reflexivity.
Qed.

End PartitionFacts.

(** X9.  The regions partition the rows that hold a label: the cells of a
    column taken region by region are, up to their order, the cells of the
    labelled rows, each one once; hence the sizes of the regions add up to
    the number of labelled rows. *)
Theorem regions_partition_labelled_rows :
  forall (labels : list (option string)) (values : list float64),
    Permutation
      (List.concat (map (fun l => region_cells l labels values)
                   (group_keys string_compare labels)))
      (labelled_cells labels values) /\
    list_sum (map (fun l => List.length (region_cells l labels values))
                  (group_keys string_compare labels))
    = List.length (labelled_cells labels values).
Proof.
  intros labels values.
  assert (H : Permutation
                (List.concat (map (fun l => region_cells l labels values)
                             (group_keys string_compare labels)))
                (labelled_cells labels values)).
  { erewrite map_ext;
      [apply (groups_partition string string_compare string_compare_eq_iff
                string_compare_antisym string_compare_lt_trans)|].
    intros l. symmetry. apply group_rows_region_cells. }
  split; [exact H|].
  rewrite <- (Permutation_length H), length_concat, map_map. reflexivity.
Qed.

(** ** The matrix and the heat map *)

(** X14.  The correlation matrix of the numeric columns is square and
    labelled: it has one row for each numeric column, in the order of the
    table, and every row has one cell for each numeric column, in the
    same order. *)
Theorem corr_matrix_square_and_labelled :
  forall df, exists m,
    DataFrame_corr (select_dtypes df) = Ok m /\
    map fst m = columns (select_dtypes df) /\
    Forall (fun row => map fst (snd row) = columns (select_dtypes df)) m /\
    List.length m = List.length (columns (select_dtypes df)) /\
    Forall (fun row => List.length (snd row) = List.length m) m.
Proof.
  intros df. destruct (DataFrame_corr_total df) as [m Hm]. exists m.
  split; [exact Hm|].
  unfold DataFrame_corr in Hm.
  destruct (mapM (fun c => to_numeric (snd c)) (select_dtypes df)) as [mat|] eqn:Em;
    [|discriminate].
  cbn [bind] in Hm. inversion Hm as [E]. clear Hm.
  pose proof (mapM_length _ _ _ _ _ Em) as Hlen.
  destruct (nancorr_length mat) as [Hrows Hcells].
  assert (Hcols : List.length (columns (select_dtypes df)) = List.length mat)
    by (unfold columns; now rewrite length_map).
  assert (Hnames : map fst (combine (columns (select_dtypes df))
                              (map (combine (columns (select_dtypes df))) (nancorr mat)))
                   = columns (select_dtypes df)).
  { apply map_fst_combine_same. now rewrite length_map, Hrows. }
  assert (Hlabels : Forall (fun row => map fst (snd row) = columns (select_dtypes df))
                      (combine (columns (select_dtypes df))
                         (map (combine (columns (select_dtypes df))) (nancorr mat)))).
  { apply Forall_forall. intros [c cells] Hin. apply in_combine_r in Hin.
    apply in_map_iff in Hin. destruct Hin as [row [<- Hrow]]. cbn [snd].
    apply map_fst_combine_same. rewrite Forall_forall in Hcells.
    now rewrite (Hcells row Hrow). }
  assert (Hm_len : List.length (combine (columns (select_dtypes df))
                                  (map (combine (columns (select_dtypes df)))
                                       (nancorr mat)))
                   = List.length (columns (select_dtypes df))).
  { rewrite length_combine, length_map, Hrows, Hcols. apply Nat.min_id. }
  split; [exact Hnames|]. split; [exact Hlabels|]. split; [exact Hm_len|].
  eapply Forall_impl; [|exact Hlabels].
  intros row Hrow. cbn beta in Hrow.
  rewrite Hm_len, <- Hrow. now rewrite length_map.
Qed.

Lemma nth_error_mapi_from (A B : Type) (f : nat -> A -> B) (l : list A) :
  forall s i, nth_error (mapi_from f s l) i = option_map (f (s + i)%nat) (nth_error l i).
Proof.
  induction l as [|a l IH]; intros s i; cbn [mapi_from].
  - now destruct i.
  - destruct i as [|i]; cbn [nth_error option_map].
    + now rewrite Nat.add_0_r.
    + rewrite IH. now rewrite Nat.add_succ_comm.
Qed.

(** What the heat map draws: the entries strictly below the diagonal. *)
Lemma heatmap_cell_below (m : list (string * list (string * option R))) (i j : nat) :
  heatmap_cell m i j = if (j <? i)%nat then matrix_at m i j else None.
Proof.
  unfold heatmap_cell, heatmap_mask, triu, ones_like, matrix_at.
  rewrite nth_error_mapi_from, nth_error_map. cbn [Nat.add].
  destruct (nth_error m i) as [[c cells]|]; cbn [option_map snd];
    [|now destruct (j <? i)%nat].
  rewrite nth_error_mapi_from, nth_error_map. cbn [Nat.add].
  destruct (nth_error cells j) as [cell|]; cbn [option_map];
    destruct (j <? i)%nat; reflexivity.
Qed.

(** X15.  The heat map draws the entries of the matrix strictly below the
    diagonal and nothing else; by symmetry, every entry above the diagonal
    that it hides is equal to one that it draws, so only the diagonal is
    not shown. *)
Theorem heatmap_draws_strict_lower_triangle :
  forall df, exists m,
    DataFrame_corr (select_dtypes df) = Ok m /\
    (forall i j,
        (j < i < List.length (select_dtypes df))%nat ->
        exists r, heatmap_cell m i j = Some r /\ matrix_at m i j = Some r) /\
    (forall i j, (i <= j)%nat -> heatmap_cell m i j = None) /\
    (forall i j,
        (i < j < List.length (select_dtypes df))%nat ->
        exists r, matrix_at m i j = Some r /\ heatmap_cell m j i = Some r).
Proof.
  intros df. destruct (DataFrame_corr_total df) as [m Hm]. exists m.
  split; [exact Hm|].
  destruct (matrix_at_corr _ _ Hm) as [mat [_ Hcell]].
  assert (Hat : forall i j,
             (i < List.length (select_dtypes df))%nat ->
             (j < List.length (select_dtypes df))%nat ->
             exists r, matrix_at m i j = Some r).
  { intros i j Hi Hj. rewrite Hcell.
    rewrite (proj2 (Nat.ltb_lt _ _) Hi), (proj2 (Nat.ltb_lt _ _) Hj).
    eexists. reflexivity. }
  assert (Hsym : forall i j, matrix_at m i j = matrix_at m j i).
  { intros i j. rewrite !Hcell.
    now rewrite (Nat.max_comm j i), (Nat.min_comm j i), (andb_comm (j <? _)%nat). }
  split; [|split].
  - intros i j [Hji Hi]. destruct (Hat i j Hi ltac:(lia)) as [r Hr].
    exists r. rewrite heatmap_cell_below.
    rewrite (proj2 (Nat.ltb_lt j i) Hji). now split.
  - intros i j Hij. rewrite heatmap_cell_below.
    now rewrite (proj2 (Nat.ltb_ge j i) Hij).
  - intros i j [Hij Hj]. destruct (Hat i j ltac:(lia) Hj) as [r Hr].
    exists r. split; [exact Hr|]. rewrite heatmap_cell_below.
    rewrite (proj2 (Nat.ltb_lt i j) Hij). now rewrite <- Hsym.
Qed.

(** ** The columns offered to the select boxes *)

Lemma getitem_In (df : DataFrame) (c : string) (s : Series) :
  getitem df c = Ok s -> In (c, s) df.
Proof.
  induction df as [|[c' s'] rest IH]; cbn [getitem]; [discriminate|].
  destruct (String.eqb_spec c c') as [->|_].
  - intros H. inversion H. now left.
  - intros H. right. now apply IH.
Qed.

Lemma hist_filter_agrees (df l : DataFrame) :
  NoDup (columns df) -> incl l df ->
  filter (fun col => match getitem df col with
                     | Ok s => is_numeric s
                     | Raise _ => false
                     end) (map fst l)
  = map fst (filter (fun c => is_numeric (snd c)) l).
Proof.
  intros Hnd. induction l as [|[c s] l IH]; intros Hincl; [reflexivity|].
  cbn [map filter fst snd].
  rewrite (getitem_unique df c s Hnd (Hincl _ (or_introl eq_refl))).
  rewrite IH by (intros x Hx; apply Hincl; now right).
  now destruct (is_numeric s).
Qed.

(** X16.  On a table with distinct column names, the columns offered for
    the histogram are the numeric columns of the correlation tab, in the
    same order; the histogram is drawn for the first of them, and without
    a numeric column the lookup of the selection raises a [KeyError]. *)
Theorem histogram_column_is_first_numeric :
  forall df,
    NoDup (columns df) ->
    hist_options df = columns (select_dtypes df) /\
    (forall c s rest,
        select_dtypes df = (c, s) :: rest ->
        distribution_analysis df = Ok (c, s)) /\
    (select_dtypes df = [] ->
     distribution_analysis df = Raise (KeyError "None")).
Proof.
  intros df Hnd.
  assert (E : hist_options df = columns (select_dtypes df)).
  { unfold hist_options, columns, select_dtypes.
    apply hist_filter_agrees; [exact Hnd | apply incl_refl]. }
  split; [exact E|]. unfold distribution_analysis. rewrite E. split.
  - intros c s rest Hsel. rewrite Hsel. cbn [columns map fst selectbox nth_error bind].
    cbn [getitem_selected].
    assert (Hin : In (c, s) df).
    { assert (H : In (c, s) (select_dtypes df)) by (rewrite Hsel; now left).
      unfold select_dtypes in H. apply filter_In in H. tauto. }
    now rewrite (getitem_unique df c s Hnd Hin).
  - intros ->. reflexivity.
Qed.

Lemma histogram_column_is_first_numeric_witness :
  distribution_analysis survey_table
  = Ok ("Income", Float64 [Some 41000; Some 52000]).
Proof.
  refine (proj1 (proj2 (histogram_column_is_first_numeric survey_table _))
            "Income" (Float64 [Some 41000; Some 52000]) _ eq_refl).
  cbn. repeat constructor; cbn; intuition discriminate.
Defined.

Lemma NoDup_columns_filter (P : string * Series -> bool) (df : DataFrame) :
  NoDup (columns df) -> NoDup (columns (filter P df)).
Proof.
  unfold columns. induction df as [|c df IH]; cbn [map filter]; intros Hnd;
    [constructor|].
  inversion Hnd as [|? ? Hnotin Hnd']; subst.
  destruct (P c); [|now apply IH].
  cbn [map]. constructor; [|now apply IH].
  intros Hin. apply Hnotin. apply in_map_iff in Hin.
  destruct Hin as [x [Hx Hin]]. apply filter_In in Hin.
  apply in_map_iff. exists x. tauto.
Qed.

Lemma select_dtypes_idem (df : DataFrame) :
  select_dtypes (select_dtypes df) = select_dtypes df.
Proof.
  unfold select_dtypes. induction df as [|c df IH]; [reflexivity|].
  cbn [filter]. destruct (is_numeric (snd c)) eqn:E; [|exact IH].
  cbn [filter]. rewrite E. now f_equal.
Qed.

(** X17.  Selecting the numeric columns keeps them as they are: on a table
    with distinct column names, a column is found in the selection
    exactly when it is found in the table and is numeric, with the same
    cells; selecting twice changes nothing, and a selection has no column
    of text. *)
Theorem select_dtypes_keeps_numeric_columns :
  forall df,
    NoDup (columns df) ->
    (forall c s,
        getitem (select_dtypes df) c = Ok s <->
        getitem df c = Ok s /\ is_numeric s = true) /\
    select_dtypes (select_dtypes df) = select_dtypes df /\
    (forall c s, getitem (select_dtypes df) c = Ok (Object s) -> False).
Proof.
  intros df Hnd.
  assert (Hlookup : forall c s,
             getitem (select_dtypes df) c = Ok s <->
             getitem df c = Ok s /\ is_numeric s = true).
  { intros c s. split.
    - intros H. apply getitem_In in H. unfold select_dtypes in H.
      apply filter_In in H. destruct H as [Hin Hnum].
      split; [now apply getitem_unique | exact Hnum].
    - intros [H Hnum]. apply getitem_In in H.
      apply getitem_unique.
      + now apply NoDup_columns_filter.
      + unfold select_dtypes. apply filter_In. now split. }
  split; [exact Hlookup|]. split.
  - apply select_dtypes_idem.
  - intros c s H. apply Hlookup in H. destruct H as [_ H]. discriminate.
Qed.

Lemma select_dtypes_keeps_numeric_columns_witness :
  getitem (select_dtypes survey_table) "Population"
  = Ok (Int64 [1200%Z; 3400%Z]).
Proof.
  refine (proj2 (proj1 (select_dtypes_keeps_numeric_columns survey_table _)
                   "Population" (Int64 [1200%Z; 3400%Z])) _).
  - cbn. repeat constructor; cbn; intuition discriminate.
  - split; reflexivity.
Defined.

(** X18.  In the minimal application the two select boxes never raise:
    both select the first numeric column, or nothing when the table has
    no numeric column. *)
Theorem minimal_selection_first_numeric :
  forall df,
    minimal_selection df
    = Ok (hd_error (columns (select_dtypes df)),
          hd_error (columns (select_dtypes df))) /\
    (forall c cols, columns (select_dtypes df) = c :: cols ->
                    minimal_selection df = Ok (Some c, Some c)).
Proof.
  intros df. unfold minimal_selection.
  destruct (columns (select_dtypes df)) as [|c cols]; split;
    try reflexivity; intros c' cols' H; inversion H; reflexivity.
Qed.

(** ** The positions of the extremes *)

Lemma Qltb_true (v b : Q) : Qltb v b = true -> ~ b <= v.
Proof. unfold Qltb. apply Qgtb_true. Qed.

Lemma Qltb_false (v b : Q) : Qltb v b = false -> b <= v.
Proof. unfold Qltb. apply Qgtb_false. Qed.

Lemma idxmax_first (l : list float64) (i : nat) :
  idxmax l = Ok i ->
  exists vi, nth_error l i = Some (Some vi) /\
    (forall k v, nth_error l k = Some (Some v) -> v <= vi) /\
    (forall k v, nth_error l k = Some (Some v) -> (k < i)%nat -> v < vi).
Proof.
  unfold idxmax. destruct (first_best Qgtb l 0 None) as [[j m]|] eqn:E;
    [|discriminate].
  intros H. inversion H; subst j.
  destruct (first_best_first Qgtb Qle Qgtb_true Qgtb_false Qle_refl Qle_trans
              Qle_total l i m E) as (Hi & Hall & Hfirst).
  exists m. split; [exact Hi|]. split; [exact Hall|].
  intros k v Hk Hlt. apply Qnot_le_lt. exact (Hfirst k v Hk Hlt).
Qed.

Lemma idxmin_first (l : list float64) (i : nat) :
  idxmin l = Ok i ->
  exists vi, nth_error l i = Some (Some vi) /\
    (forall k v, nth_error l k = Some (Some v) -> vi <= v) /\
    (forall k v, nth_error l k = Some (Some v) -> (k < i)%nat -> vi < v).
Proof.
  unfold idxmin. destruct (first_best Qltb l 0 None) as [[j m]|] eqn:E;
    [|discriminate].
  intros H. inversion H; subst j.
  destruct (first_best_first Qltb (fun v m => m <= v) Qltb_true Qltb_false
              Qle_refl (fun a b c Hab Hbc => Qle_trans _ _ _ Hbc Hab)
              (fun a b => Qle_total b a) l i m E)
    as (Hi & Hall & Hfirst).
  exists m. split; [exact Hi|]. split; [exact Hall|].
  intros k v Hk Hlt. apply Qnot_le_lt. exact (Hfirst k v Hk Hlt).
Qed.

(** X19.  [idxmax] and [idxmin] raise a [ValueError] exactly on a column
    without a present value (an empty one included); otherwise they return
    the positions of present cells, the first that holds the largest and
    the first that holds the smallest value, and every present value lies
    between the two. *)
Theorem idxmax_idxmin_positions :
  forall l : list float64,
    ((forall c, In c l -> c = None) ->
     idxmax l = Raise (ValueError "attempt to get argmax of an empty sequence") /\
     idxmin l = Raise (ValueError "attempt to get argmax of an empty sequence")) /\
    (forall x, In (Some x) l ->
       exists i j vi vj,
         idxmax l = Ok i /\ idxmin l = Ok j /\
         nth_error l i = Some (Some vi) /\ nth_error l j = Some (Some vj) /\
         (forall k v, nth_error l k = Some (Some v) -> vj <= v <= vi) /\
         (forall k v, nth_error l k = Some (Some v) -> (k < i)%nat -> v < vi) /\
         (forall k v, nth_error l k = Some (Some v) -> (k < j)%nat -> vj < v)).
Proof.
  intros l. split.
  - intros Hnone. unfold idxmax, idxmin.
    rewrite !first_best_none by exact Hnone. split; reflexivity.
  - intros x Hx. apply In_nth_error in Hx. destruct Hx as [k0 Hk0].
    destruct (first_best_found Qgtb l 0%nat k0 x Hk0) as [[i vi] Ei].
    destruct (first_best_found Qltb l 0%nat k0 x Hk0) as [[j vj] Ej].
    assert (Hi : idxmax l = Ok i) by (unfold idxmax; now rewrite Ei).
    assert (Hj : idxmin l = Ok j) by (unfold idxmin; now rewrite Ej).
    destruct (idxmax_first l i Hi) as (vi' & Hvi & Hmax & Hfmax).
    destruct (idxmin_first l j Hj) as (vj' & Hvj & Hmin & Hfmin).
    exists i, j, vi', vj'. repeat split; eauto.
Qed.

Lemma idxmax_idxmin_positions_witness :
  idxmax [None; Some 3; Some 7; Some 7; None; Some 3] = Ok 2%nat /\
  idxmin [None; Some 3; Some 7; Some 7; None; Some 3] = Ok 1%nat.
Proof.
  destruct (proj2 (idxmax_idxmin_positions
                     [None; Some 3; Some 7; Some 7; None; Some 3]) 3)
    as (i & j & vi & vj & Hi & Hj & _); [cbn; auto|].
  split; reflexivity.
Defined.

(** ** The strength of a coefficient, again *)

Lemma InterpretStrength_negate (r : option R) :
  InterpretStrength (negate r) = InterpretStrength r.
Proof.
  destruct r as [r|]; [|reflexivity]. cbn [negate option_map InterpretStrength].
  now rewrite Rabs_Ropp.
Qed.

Local Open Scope R_scope.

(** X20.  The strength depends on the absolute value of the coefficient
    only, and it grows with it: a coefficient and its opposite have the
    same strength, and a coefficient of larger absolute value never has a
    lower strength. *)
Theorem InterpretStrength_even_and_monotone :
  (forall r : option R, InterpretStrength (negate r) = InterpretStrength r) /\
  (forall r1 r2 : R,
      Rabs r1 <= Rabs r2 ->
      (strength_rank (InterpretStrength (Some r1))
       <= strength_rank (InterpretStrength (Some r2)))%nat).
Proof.
  split; [exact InterpretStrength_negate|].
  intros r1 r2 H. unfold InterpretStrength.
  destruct (Rlt_dec 0.7 (Rabs r1)), (Rlt_dec 0.7 (Rabs r2)),
    (Rlt_dec 0.4 (Rabs r1)), (Rlt_dec 0.4 (Rabs r2));
    cbn [strength_rank]; try lia; exfalso; lra.
Qed.

Lemma InterpretStrength_even_and_monotone_witness :
  (strength_rank (InterpretStrength (Some 0.5%R))
   <= strength_rank (InterpretStrength (Some (-0.8)%R)))%nat.
Proof.
  apply (proj2 InterpretStrength_even_and_monotone).
  rewrite Rabs_pos_eq by lra. rewrite Rabs_left by lra. lra.
Defined.

Local Close Scope R_scope.

(** ** The preview *)

Lemma head_series_rows (s : Series) :
  n_rows (head_series s) = Nat.min 5 (n_rows s).
Proof. destruct s; cbn [head_series n_rows]; apply length_firstn. Qed.

Lemma head_series_idem (s : Series) : head_series (head_series s) = head_series s.
Proof.
  destruct s; cbn [head_series]; now rewrite firstn_firstn.
Qed.

Lemma head_series_short (s : Series) :
  (n_rows s <= 5)%nat -> head_series s = s.
Proof.
  destruct s; cbn [head_series n_rows]; intros H; now rewrite firstn_all2.
Qed.

Lemma nth_error_firstn_below (A : Type) (n i : nat) (l : list A) :
  (i < n)%nat -> nth_error (firstn n l) i = nth_error l i.
Proof.
  revert i l. induction n as [|n IH]; intros i l Hi; [lia|].
  destruct l as [|a l]; [reflexivity|].
  destruct i as [|i]; cbn [firstn nth_error]; [reflexivity|].
  apply IH. lia.
Qed.

(** X21.  The preview keeps the columns of the table, their names, their
    order and their dtype, and cuts each of them to its first five cells
    (to all of them when there are at most five): the cell of the preview
    at a position below 5 is the cell of the table at that position, and
    there is none from 5 on.  Previewing a preview changes nothing, and
    the numeric columns of the preview are the preview of the numeric
    columns. *)
Theorem head_keeps_columns_and_first_rows :
  forall df,
    columns (head df) = columns df /\
    Forall2 (fun c c' => n_rows (snd c') = Nat.min 5 (n_rows (snd c)) /\
                         is_numeric (snd c') = is_numeric (snd c))
            df (head df) /\
    Forall2 (fun c c' =>
               fst c' = fst c /\
               match snd c, snd c' with
               | Float64 v, Float64 v' =>
                   forall i, nth_error v' i
                             = if (i <? 5)%nat then nth_error v i else None
               | Int64 v, Int64 v' =>
                   forall i, nth_error v' i
                             = if (i <? 5)%nat then nth_error v i else None
               | Object v, Object v' =>
                   forall i, nth_error v' i
                             = if (i <? 5)%nat then nth_error v i else None
               | _, _ => False
               end)
            df (head df) /\
    head (head df) = head df /\
    (Forall (fun c => (n_rows (snd c) <= 5)%nat) df -> head df = df) /\
    select_dtypes (head df) = head (select_dtypes df).
Proof.
  intros df. unfold head, columns, select_dtypes.
  assert (Hcut : forall (A : Type) (v : list A) (i : nat),
             nth_error (firstn 5 v) i
             = if (i <? 5)%nat then nth_error v i else None).
  { intros A v i. destruct (i <? 5)%nat eqn:E.
    - apply Nat.ltb_lt in E. now apply nth_error_firstn_below.
    - apply Nat.ltb_ge in E. apply nth_error_None.
      pose proof (length_firstn 5 v). lia. }
  split; [|split; [|split; [|split; [|split]]]].
  - rewrite map_map. reflexivity.
  - induction df as [|c df IH]; cbn [map]; constructor; [|exact IH].
    cbn [snd]. split; [apply head_series_rows | now destruct (snd c)].
  - induction df as [|c df IH]; cbn [map]; constructor; [|exact IH].
    cbn [fst snd]. split; [reflexivity|].
    destruct (snd c); cbn [head_series]; intros i; apply Hcut.
  - rewrite map_map. apply map_ext. intros c. cbn [fst snd].
    now rewrite head_series_idem.
  - intros H. induction H as [|c df Hc Hrest IH]; [reflexivity|].
    cbn [map]. rewrite IH, (head_series_short _ Hc). now destruct c.
  - induction df as [|c df IH]; [reflexivity|].
    cbn [map filter snd].
    assert (E : is_numeric (head_series (snd c)) = is_numeric (snd c))
      by now destruct (snd c).
    rewrite E. destruct (is_numeric (snd c)); cbn [map]; now rewrite IH.
Qed.

Lemma head_keeps_columns_and_first_rows_witness : head survey_table = survey_table.
Proof.
  apply (proj1 (proj2 (proj2 (proj2 (proj2
           (head_keeps_columns_and_first_rows survey_table)))))).
  repeat constructor.
Defined.

(** ** Regions given as numbers *)

Lemma Z_compare_lt_trans (a b c : Z) :
  Z.compare a b = Lt -> Z.compare b c = Lt -> Z.compare a c = Lt.
Proof.
  rewrite !Z.compare_lt_iff. apply Z.lt_trans.
Qed.

Lemma regional_stats_coded (df : DataFrame) (codes : list Z)
    (stats : list RegionStats) :
  getitem df "Region" = Ok (Int64 codes) ->
  regional_stats df = Ok stats ->
  exists income poverty cancer,
    stats = aggregate Z.compare KInt (map Some codes) income poverty cancer.
Proof.
  unfold regional_stats. intros -> H. cbn [bind] in H.
  destruct (getitem df "Median_Income") as [si|]; [|discriminate].
  destruct (getitem df "Poverty_Rate") as [sp|]; [|discriminate].
  destruct (getitem df "Cancer_Rate") as [sc|]; [|discriminate].
  cbn [bind] in H.
  destruct (to_numeric si) as [income|]; [|discriminate].
  destruct (to_numeric sp) as [poverty|]; [|discriminate].
  destruct (to_numeric sc) as [cancer|]; [|discriminate].
  cbn [bind] in H. inversion H. now exists income, poverty, cancer.
Qed.

(** X22.  When the regions are integer codes, the statistics have one row
    for each distinct code, in the increasing order of the numbers (9
    before 10, which as text would come first). *)
Theorem coded_regions_in_numeric_order :
  (forall df codes stats,
      getitem df "Region" = Ok (Int64 codes) ->
      regional_stats df = Ok stats ->
      StronglySorted region_before stats /\
      NoDup (map Region stats) /\
      (forall z, In z codes <-> In (KInt z) (map Region stats))) /\
  (exists stats,
      regional_stats coded_table = Ok stats /\
      map Region stats = [KInt 9; KInt 10]) /\
  string_compare "10" "9" = Lt.
Proof.
  split; [|split; [|reflexivity]].
  - intros df codes stats Hregion Hstats.
    destruct (regional_stats_coded df codes stats Hregion Hstats)
      as (income & poverty & cancer & ->).
    pose proof (group_keys_sorted Z Z.compare Z.compare_eq_iff
                  (fun a b => Z.compare_antisym a b) Z_compare_lt_trans
                  (map Some codes)) as Hsorted.
    assert (Hregions : map Region (aggregate Z.compare KInt (map Some codes)
                                     income poverty cancer)
                       = map KInt (group_keys Z.compare (map Some codes))).
    { unfold aggregate. rewrite map_map. reflexivity. }
    split; [|split].
    + unfold aggregate.
      apply StronglySorted_map with (R := fun a b => Z.compare a b = Lt);
        [|exact Hsorted].
      intros a b H. unfold region_before. cbn [Region key_lt].
      now apply Z.compare_lt_iff.
    + rewrite Hregions.
      apply NoDup_map_NoDup_ForallPairs.
      * intros a b _ _ E. now inversion E.
      * exact (sorted_NoDup Z Z.compare Z.compare_eq_iff _ Hsorted).
    + intros z. rewrite Hregions.
      assert (Hk : In z (group_keys Z.compare (map Some codes))
                   <-> In (Some z) (map Some codes))
        by apply (group_keys_In Z Z.compare Z.compare_eq_iff).
      split.
      * intros Hz. apply in_map. apply Hk. now apply in_map.
      * intros H. apply in_map_iff in H. destruct H as [x [E Hin]].
        inversion E; subst x. apply Hk in Hin.
        apply in_map_iff in Hin. destruct Hin as [y [Ey Hy]].
        now inversion Ey; subst.
  - eexists. split; [vm_compute; reflexivity | reflexivity].
Qed.

Lemma coded_regions_in_numeric_order_witness :
  exists stats,
    regional_stats coded_table = Ok stats /\
    StronglySorted region_before stats.
Proof.
  eexists. split; [vm_compute; reflexivity|].
  refine (proj1 (proj1 coded_regions_in_numeric_order coded_table
                   [10%Z; 9%Z; 10%Z] _ eq_refl eq_refl)).
Defined.

(** ** What the explorer reports *)

(** X23.  Whenever the explorer returns, the two columns it reports are
    the numeric columns at positions 2 and 5, the coefficient it reports
    lies between -1 and 1 when it is defined, and the strength it reports
    is the strength of that coefficient. *)
Theorem explorer_report_is_consistent :
  forall df r,
    relationship_explorer df = Ok r ->
    x_col r = nth_error (columns (select_dtypes df)) 2 /\
    y_col r = nth_error (columns (select_dtypes df)) 5 /\
    x_col r <> None /\ y_col r <> None /\
    label r = InterpretStrength (correlation r) /\
    (forall c, correlation r = Some c -> (-1 <= c <= 1)%R).
Proof.
  intros df r H. unfold relationship_explorer in H.
  destruct (selectbox (columns (select_dtypes df)) 2) as [x|] eqn:Ex;
    [|discriminate].
  destruct (selectbox (columns (select_dtypes df)) 5) as [y|] eqn:Ey;
    [|discriminate].
  cbn [bind] in H.
  destruct (getitem_selected df x) as [sx|] eqn:Esx; [|discriminate].
  destruct (getitem_selected df y) as [sy|] eqn:Esy; [|discriminate].
  cbn [bind] in H.
  destruct (Series_corr sx sy) as [c|] eqn:Ec; [|discriminate].
  cbn [bind] in H. inversion H; subst r. cbn [x_col y_col correlation label].
  destruct x as [cx|]; [|discriminate]. destruct y as [cy|]; [|discriminate].
  apply selectbox_ok in Ex. apply selectbox_ok in Ey.
  destruct Ex as [[_ Hx]|[cx' [Hx Hnx]]]; [discriminate|].
  destruct Ey as [[_ Hy]|[cy' [Hy Hny]]]; [discriminate|].
  inversion Hx; inversion Hy; subst cx' cy'.
  split; [now rewrite Hnx|]. split; [now rewrite Hny|].
  split; [discriminate|]. split; [discriminate|]. split; [reflexivity|].
  intros c' Hc'. subst c. unfold Series_corr in Ec.
  destruct (to_numeric sx) as [va|]; [|discriminate].
  destruct (to_numeric sy) as [vb|]; [|discriminate].
  cbn [bind] in Ec. inversion Ec as [Hcorr].
  exact (corr_values_bounds va vb c' Hcorr).
Qed.

Lemma explorer_report_is_consistent_witness :
  exists r, relationship_explorer six_column_table = Ok r /\
            label r = InterpretStrength (correlation r).
Proof.
  eexists. split; [reflexivity|].
  exact (proj1 (proj2 (proj2 (proj2 (proj2
           (explorer_report_is_consistent six_column_table _ eq_refl)))))).
Defined.

(** ** The floor of the cancer rate *)

(** X24.  Whatever is drawn, the column of the cancer rate of the demo
    table has no missing cell and none of its cells is below 50. *)
Theorem demo_cancer_rate_at_least_50 {RS : NumpyRandom} :
  forall ambient : rng,
    exists cells,
      getitem (fst (load_demo_data ambient)) "Cancer_Rate" = Ok (Float64 cells) /\
      forall c, In c cells -> exists v, c = Some v /\ 50 <= v.
Proof.
  intros ambient. destruct (Cancer_Rate_floored ambient) as [cells [Hget Hfloor]].
  exists (map Some cells). split; [exact Hget|].
  intros c Hc. apply in_map_iff in Hc. destruct Hc as [v [<- Hv]].
  exists v. split; [reflexivity | now apply Hfloor].
Qed.
